(** * NASA Space Explorer: the gallery script, embedded and verified

    A shallow embedding of [js/script.js] (and of its near-duplicate, the
    second script variant, which differs only in the markup wrapped around
    grid images).  JavaScript values that reach the script come from
    [JSON.parse], so they are modelled by a JSON value type extended with
    [undefined]; strings are byte strings; the page is modelled by the three
    pieces of mutable state the script owns: [apodItems], the gallery's
    [innerHTML], and the lazily created modal. *)

From Stdlib Require Import String Ascii ZArith List Bool Lia.
From Stdlib Require Import DecimalString DecimalZ DecimalPos.
Import ListNotations.
Set Warnings "-register-all".
Open Scope string_scope.
Open Scope Z_scope.

(* ================================================================== *)
(** ** JavaScript values and the primitives the script relies on      *)
(* ================================================================== *)

Module Js.

(** Values produced by [JSON.parse], plus [undefined] (the result of reading
    an absent property).  The script never does arithmetic on feed
    numbers: it tests their truthiness and interpolates them.  [JNum n] is
    an integer of magnitude at most 2^53 - 1, which JavaScript holds
    exactly and prints in plain decimal ([-0] behaves like [0] in both
    respects).  Every other number [JSON.parse] can return (a fraction, a
    larger magnitude, [Infinity] from an overflowing literal) is
    [JNumOther text], known by the text [ToString] gives it; such a number
    is never zero. *)
Inductive JsVal : Type :=
| JUndefined
| JNull
| JBool (b : bool)
| JNum (n : Z)
| JNumOther (text : string)
| JStr (s : string)
| JArr (elems : list JsVal)
| JObj (props : list (string * JsVal)).

(** A JavaScript number as arithmetic sees it here: an integer, or [NaN]. *)
Definition Number := option Z.
Definition NaN : Number := None.

(** What the engine itself can throw while the script runs.  The message
    text of these errors is engine-defined. *)
Inductive EngineFault : Type :=
| FetchFailed            (* fetch() rejected: no response at all *)
| BodyNotJson            (* res.json() rejected: body is not JSON *)
| PropertyOfNullish      (* property read / destructuring on null or undefined *)
| NotCallable            (* calling a member that is not a function *)
| NotPrimitive.          (* ToString of an object that cannot be converted *)

Inductive JsError : Type :=
| UserError (message : string)        (* new Error(message) *)
| EngineError (fault : EngineFault).

(** Completion of an evaluation: a value, or a thrown exception. *)
Inductive Completion (A : Type) : Type :=
| Normal (a : A)
| Throw (e : JsError).
Arguments Normal {A} a.
Arguments Throw {A} e.

Definition bind {A B : Type} (c : Completion A) (k : A -> Completion B)
  : Completion B :=
  match c with
  | Normal a => k a
  | Throw e => Throw e
  end.

Notation "x <- c ;; k" := (bind c (fun x => k))
  (at level 61, c at next level, right associativity).

(** *** Characters and strings *)

Definition dq : string := String (ascii_of_nat 34) EmptyString.
Definition nl : string := String (ascii_of_nat 10) EmptyString.
Definition tab : string := String (ascii_of_nat 9) EmptyString.

Definition isDigit (c : ascii) : bool :=
  let n := nat_of_ascii c in (48 <=? n)%nat && (n <=? 57)%nat.

Definition isLower (c : ascii) : bool :=
  let n := nat_of_ascii c in (97 <=? n)%nat && (n <=? 122)%nat.

Definition isUpper (c : ascii) : bool :=
  let n := nat_of_ascii c in (65 <=? n)%nat && (n <=? 90)%nat.

(** One-byte members of the StrWhiteSpaceChar class skipped by [parseInt]:
    TAB, LF, VT, FF, CR and SP. *)
Definition isWhite (c : ascii) : bool :=
  let n := nat_of_ascii c in
  ((9 <=? n)%nat && (n <=? 13)%nat) || (n =? 32)%nat.

(** First byte of the UTF-8 encoding of the other members of that class. *)
Definition isWhiteLead (c : ascii) : bool :=
  let n := nat_of_ascii c in
  (n =? 194)%nat || (n =? 225)%nat || (n =? 226)%nat || (n =? 227)%nat ||
  (n =? 239)%nat.

(** U+00A0. *)
Definition isWhite2 (c1 c2 : ascii) : bool :=
  (nat_of_ascii c1 =? 194)%nat && (nat_of_ascii c2 =? 160)%nat.

(** U+1680, U+2000 to U+200A, U+2028, U+2029, U+202F, U+205F, U+3000 and
    U+FEFF. *)
Definition isWhite3 (c1 c2 c3 : ascii) : bool :=
  let n1 := nat_of_ascii c1 in
  let n2 := nat_of_ascii c2 in
  let n3 := nat_of_ascii c3 in
  ((n1 =? 225) && (n2 =? 154) && (n3 =? 128))%nat ||
  ((n1 =? 226) && (n2 =? 128) &&
   (((128 <=? n3) && (n3 <=? 138)) || (n3 =? 168) || (n3 =? 169) ||
    (n3 =? 175)))%nat ||
  ((n1 =? 226) && (n2 =? 129) && (n3 =? 159))%nat ||
  ((n1 =? 227) && (n2 =? 128) && (n3 =? 128))%nat ||
  ((n1 =? 239) && (n2 =? 187) && (n3 =? 191))%nat.

Definition digitValue (c : ascii) : Z := Z.of_nat (nat_of_ascii c) - 48.

Fixpoint allDigits (s : string) : bool :=
  match s with
  | EmptyString => true
  | String c s' => isDigit c && allDigits s'
  end.

(** [startsWith p s]: [s.startsWith(p)]. *)
Fixpoint startsWith (p s : string) : bool :=
  match p, s with
  | EmptyString, _ => true
  | String a p', String b s' => Ascii.eqb a b && startsWith p' s'
  | String _ _, EmptyString => false
  end.

(** [includes s needle]: [s.includes(needle)]. *)
Fixpoint includes (s needle : string) : bool :=
  startsWith needle s ||
  match s with
  | EmptyString => false
  | String _ s' => includes s' needle
  end.

(** Removes [p] from the front of [s], when it is there. *)
Fixpoint stripPrefix (p s : string) : option string :=
  match p, s with
  | EmptyString, _ => Some s
  | String a p', String b s' =>
      if Ascii.eqb a b then stripPrefix p' s' else None
  | String _ _, EmptyString => None
  end.

(** Longest prefix of [s] whose characters all satisfy [f]. *)
Fixpoint takeWhile (f : ascii -> bool) (s : string) : string :=
  match s with
  | EmptyString => EmptyString
  | String c s' => if f c then String c (takeWhile f s') else EmptyString
  end.


(** Drops the leading white space of [s], as [parseInt] does. *)
Fixpoint skipWhite (s : string) : string :=
  match s with
  | EmptyString => s
  | String c1 r1 =>
      if isWhite c1 then skipWhite r1
      else if isWhiteLead c1 then
        match r1 with
        | String c2 r2 =>
            if isWhite2 c1 c2 then skipWhite r2
            else
              match r2 with
              | String c3 r3 => if isWhite3 c1 c2 c3 then skipWhite r3 else s
              | EmptyString => s
              end
        | EmptyString => s
        end
      else s
  end.

(** [Array.prototype.join('')] on an array of strings. *)
Definition joinEmpty (parts : list string) : string :=
  fold_right String.append EmptyString parts.

(** *** Numbers *)

(** [String(n)] / [`${n}`] for a number. *)
Definition numberToString (n : Number) : string :=
  match n with
  | None => "NaN"
  | Some z => NilZero.string_of_int (Z.to_int z)
  end.

Definition numSub (a b : Number) : Number :=
  match a, b with
  | Some x, Some y => Some (x - y)
  | _, _ => NaN
  end.

(** [Math.min] and [Math.max]: [NaN] if either argument is. *)
Definition mathMin (a b : Number) : Number :=
  match a, b with
  | Some x, Some y => Some (Z.min x y)
  | _, _ => NaN
  end.

Definition mathMax (a b : Number) : Number :=
  match a, b with
  | Some x, Some y => Some (Z.max x y)
  | _, _ => NaN
  end.

Fixpoint digitsValue (acc : Z) (s : string) : Z :=
  match s with
  | EmptyString => acc
  | String c s' => digitsValue (10 * acc + digitValue c) s'
  end.

(** [parseInt(s, 10)]: skip leading white space, read an optional sign, then
    the longest run of decimal digits; [NaN] when that run is empty. *)
Definition parseInt (s : string) : Number :=
  let s1 := skipWhite s in
  let '(sign, s2) :=
    match s1 with
    | String "-"%char r => (-1, r)
    | String "+"%char r => (1, r)
    | _ => (1, s1)
    end in
  let ds := takeWhile isDigit s2 in
  match ds with
  | EmptyString => NaN
  | _ => Some (sign * digitsValue 0 ds)
  end.

(** *** Values: conversions, truthiness, property access *)

(** The text [ToString] yields for [v] when it yields one: the literal
    names of [undefined], [null] and the booleans, the decimal text of a
    number, a string itself, the elements of an array joined by commas
    ([null] and [undefined] elements giving nothing), and
    ["[object Object]"] for an object. *)
Fixpoint textOf (v : JsVal) : string :=
  match v with
  | JUndefined => "undefined"
  | JNull => "null"
  | JBool true => "true"
  | JBool false => "false"
  | JNum n => numberToString (Some n)
  | JNumOther text => text
  | JStr s => s
  | JArr elems =>
      (fix join (l : list JsVal) : string :=
         match l with
         | [] => ""
         | x :: l' =>
             match x with
             | JUndefined | JNull => ""
             | _ => textOf x
             end ++
             match l' with
             | [] => ""
             | _ :: _ => "," ++ join l'
             end
         end) elems
  | JObj _ => "[object Object]"
  end.

(** Whether the object has an own property named [key], whatever its
    value. *)
Fixpoint hasKey (props : list (string * JsVal)) (key : string) : bool :=
  match props with
  | [] => false
  | (k, _) :: rest => String.eqb k key || hasKey rest key
  end.

(** Whether [ToString] yields a text at all.  An object parsed from JSON
    answers through [Object.prototype.toString] unless it has an own
    [toString] property: that property shadows the inherited method, is not
    callable, and [valueOf] gives back the object, so the conversion ends in
    a TypeError.  An array prints when its elements do. *)
Fixpoint printable (v : JsVal) : bool :=
  match v with
  | JArr elems =>
      (fix all (l : list JsVal) : bool :=
         match l with
         | [] => true
         | x :: l' => printable x && all l'
         end) elems
  | JObj props => negb (hasKey props "toString")
  | _ => true
  end.

(** [ToString], as applied by template literals. *)
Definition toString (v : JsVal) : Completion string :=
  if printable v then Normal (textOf v)
  else Throw (EngineError NotPrimitive).

(** [ToBoolean]. *)
Definition truthy (v : JsVal) : bool :=
  match v with
  | JUndefined | JNull => false
  | JBool b => b
  | JNum n => negb (n =? 0)
  | JNumOther _ => true
  | JStr s => negb (String.eqb s "")
  | JArr _ | JObj _ => true
  end.

(** [a || b]. *)
Definition jsOr (a b : JsVal) : JsVal := if truthy a then a else b.

Definition isString (v : JsVal) : bool :=
  match v with
  | JStr _ => true
  | _ => false
  end.

(** [v === 'lit'] for a string literal. *)
Definition strictEqStr (v : JsVal) (lit : string) : bool :=
  match v with
  | JStr s => String.eqb s lit
  | _ => false
  end.

Fixpoint lookupProp (props : list (string * JsVal)) (key : string) : JsVal :=
  match props with
  | [] => JUndefined
  | (k, v) :: rest => if String.eqb k key then v else lookupProp rest key
  end.

(** [v.key] for the keys the script reads ([media_type], [title], [date],
    [url], [hdurl], [thumbnail_url], [explanation]): none of them is a
    built-in property of a primitive or of an array, so only objects can
    answer anything but [undefined], and only [null] and [undefined] throw. *)
Definition getProp (v : JsVal) (key : string) : Completion JsVal :=
  match v with
  | JUndefined | JNull => Throw (EngineError PropertyOfNullish)
  | JObj props => Normal (lookupProp props key)
  | _ => Normal JUndefined
  end.

(** [arr[i]] for a number [i]: [undefined] unless [i] is an index in range. *)
Definition arrayGet (arr : list JsVal) (i : Number) : JsVal :=
  match i with
  | Some z => if z <? 0 then JUndefined
              else nth (Z.to_nat z) arr JUndefined
  | None => JUndefined
  end.

End Js.
Import Js.

(* ================================================================== *)
(** ** 4) formatDate                                                   *)
(* ================================================================== *)

(** Reads exactly [n] decimal digits: the regex piece [(\d{n})]. *)
Fixpoint takeDigits (n : nat) (s : string) : option (string * string) :=
  match n with
  | O => Some (EmptyString, s)
  | S n' =>
      match s with
      | String c s' =>
          if isDigit c then
            match takeDigits n' s' with
            | Some (ds, rest) => Some (String c ds, rest)
            | None => None
            end
          else None
      | EmptyString => None
      end
  end.

Definition expectChar (c : ascii) (s : string) : option string :=
  match s with
  | String c' s' => if Ascii.eqb c c' then Some s' else None
  | EmptyString => None
  end.

(** [isoDate.match(/^(\d{4})-(\d{2})-(\d{2})$/)]: the three captured
    groups, or [None] where JavaScript yields [null].  The pattern is
    anchored at both ends and has no [m] flag, so it must consume the whole
    string. *)
Definition isoDateMatch (s : string) : option (string * string * string) :=
  match takeDigits 4 s with
  | Some (y, r1) =>
      match expectChar "-" r1 with
      | Some r2 =>
          match takeDigits 2 r2 with
          | Some (m, r3) =>
              match expectChar "-" r3 with
              | Some r4 =>
                  match takeDigits 2 r4 with
                  | Some (d, EmptyString) => Some (y, m, d)
                  | _ => None
                  end
              | None => None
              end
          | None => None
          end
      | None => None
      end
  | None => None
  end.

Definition months : list JsVal :=
  [JStr "Jan"; JStr "Feb"; JStr "Mar"; JStr "Apr"; JStr "May"; JStr "Jun";
   JStr "Jul"; JStr "Aug"; JStr "Sep"; JStr "Oct"; JStr "Nov"; JStr "Dec"].

Definition formatDate (isoDate : JsVal) : string :=
  match isoDate with
  | JStr s =>
      match isoDateMatch s with
      | None => s
      | Some (y, m, d) =>
          let monthName :=
            arrayGet months
              (mathMax (Some 0) (mathMin (Some 11) (numSub (parseInt m) (Some 1)))) in
          let day := numberToString (parseInt d) in
          textOf monthName ++ " " ++ day ++ ", " ++ y
      end
  | _ => ""
  end.

(* ================================================================== *)
(** ** Page state                                                      *)
(* ================================================================== *)

Inductive Display : Type := DisplayNone | DisplayFlex.

(** The modal once [ensureModal] has built it: the overlay's
    [style.display] and the [innerHTML] of [#modalInner]. *)
Record Modal : Type := mkModal {
  display : Display;
  modalInner : string
}.

(** The mutable state the script owns.  [modalOverlay] is [None] while the
    script's variable of that name is still [null]. *)
Record Page : Type := mkPage {
  apodItems : list JsVal;
  galleryHTML : string;
  modalOverlay : option Modal
}.

Definition setGallery (html : string) (pg : Page) : Page :=
  mkPage (apodItems pg) html (modalOverlay pg).

Definition setItems (items : list JsVal) (pg : Page) : Page :=
  mkPage items (galleryHTML pg) (modalOverlay pg).

Definition setModal (m : Modal) (pg : Page) : Page :=
  mkPage (apodItems pg) (galleryHTML pg) (Some m).

(* ================================================================== *)
(** ** Markup helpers                                                  *)
(* ================================================================== *)

Fixpoint tabs (k : nat) : string :=
  match k with
  | O => EmptyString
  | S k' => tab ++ tabs k'
  end.

(** A template-literal line: a line break, [k] tabs of indentation, text. *)
Definition ln (k : nat) (text : string) : string := nl ++ tabs k ++ text.

(** [name="value"]. *)
Definition attr (name value : string) : string :=
  name ++ "=" ++ dq ++ value ++ dq.

(** The two variants of the script: [js/script.js] wraps grid images in a
    [div.image-wrapper]; the other copy emits the bare [img]. *)
Inductive Variant : Type := Wrapped | Bare.

(* ================================================================== *)
(** ** 5) showLoading                                                  *)
(* ================================================================== *)

Definition loadingMarkup : string :=
  ln 2 ("<div " ++ attr "class" "placeholder" ++ ">") ++
  ln 3 ("<div " ++ attr "class" "placeholder-icon" ++ ">🔄</div>") ++
  ln 3 "<p>Loading space photos…</p>" ++
  ln 2 "</div>" ++
  ln 1 "".

Definition showLoading (pg : Page) : Page := setGallery loadingMarkup pg.

(* ================================================================== *)
(** ** 6) renderGallery                                                *)
(* ================================================================== *)

(** [<img src="..." alt="..." loading="lazy" />], inside its wrapper in the
    [Wrapped] variant; [k] is the indentation of the template. *)
Definition gridImage (vr : Variant) (k : nat) (src alt : string) : string :=
  let img := "<img " ++ attr "src" src ++ " " ++ attr "alt" alt ++ " " ++
             attr "loading" "lazy" ++ " />" in
  match vr with
  | Wrapped =>
      ln (S k) ("<div " ++ attr "class" "image-wrapper" ++ ">") ++
      ln (S (S k)) img ++
      ln (S k) "</div>" ++
      ln k ""
  | Bare =>
      ln (S k) img ++
      ln k ""
  end.

Definition videoPlaceholder : string :=
  ln 5 ("<div " ++ attr "class" "video-placeholder" ++ ">") ++
  ln 6 "<p>🎬 Video</p>" ++
  ln 6 "<p><small>Click to open</small></p>" ++
  ln 5 "</div>" ++
  ln 4 "".

Definition unsupportedPlaceholder : string :=
  ln 4 ("<div " ++ attr "class" "video-placeholder" ++ ">") ++
  ln 5 "<p>Unsupported media</p>" ++
  ln 4 "</div>" ++
  ln 3 "".

(** [item.url || item.hdurl || ''] *)
Definition imgSrc (url hdurl : JsVal) : JsVal :=
  jsOr (jsOr url hdurl) (JStr "").

(** The [visualHTML] of a card, from the destructured [media_type] and
    [title] and the item itself. *)
Definition visualHTML (vr : Variant) (item media_type title : JsVal)
  : Completion string :=
  if strictEqStr media_type "image" then
    url <- getProp item "url" ;;
    hdurl <- getProp item "hdurl" ;;
    src <- toString (imgSrc url hdurl) ;;
    alt <- toString title ;;
    Normal (gridImage vr 3 src alt)
  else if strictEqStr media_type "video" then
    thumb <- getProp item "thumbnail_url" ;;
    if truthy thumb then
      src <- toString thumb ;;
      alt <- toString title ;;
      Normal (gridImage vr 4 src (alt ++ " (video)"))
    else
      Normal videoPlaceholder
  else
    Normal unsupportedPlaceholder.

Definition cardMarkup (index : nat) (title date visual : string) : string :=
  ln 3 ("<div " ++ attr "class" "gallery-item" ++ " " ++
        attr "data-index" (numberToString (Some (Z.of_nat index))) ++ " " ++
        attr "tabindex" "0" ++ " " ++
        attr "aria-label"
          ("Open details for " ++ title ++ " (" ++ date ++ ")") ++ ">") ++
  ln 4 visual ++
  ln 4 ("<p><strong>" ++ title ++ "</strong></p>") ++
  ln 4 ("<p>" ++ date ++ "</p>") ++
  ln 3 "</div>" ++
  ln 2 "".

(** The callback handed to [items.map]: one card per item.  Destructuring
    [{ media_type, title, date } = item] throws on [null]/[undefined], and
    each interpolation of a field throws when the field cannot be converted
    to a string. *)
Definition renderCard (vr : Variant) (item : JsVal) (index : nat)
  : Completion string :=
  media_type <- getProp item "media_type" ;;
  title <- getProp item "title" ;;
  date <- getProp item "date" ;;
  visual <- visualHTML vr item media_type title ;;
  label <- toString title ;;
  Normal (cardMarkup index label (formatDate date) visual).

(** [items.map((item, index) => ...)], the index counting from [index]. *)
Fixpoint mapCards (vr : Variant) (items : list JsVal) (index : nat)
  : Completion (list string) :=
  match items with
  | [] => Normal []
  | item :: rest =>
      card <- renderCard vr item index ;;
      cards <- mapCards vr rest (S index) ;;
      Normal (card :: cards)
  end.

Definition renderGallery (vr : Variant) (items : list JsVal) (pg : Page)
  : Completion unit * Page :=
  match mapCards vr items 0 with
  | Normal cards => (Normal tt, setGallery (joinEmpty cards) pg)
  | Throw e => (Throw e, pg)
  end.

(* ================================================================== *)
(** ** 7) - 9) The modal                                               *)
(* ================================================================== *)

(** Builds the overlay once, hidden and with an empty [#modalInner]; later
    calls find [modalOverlay] set and return at once. *)
Definition ensureModal (pg : Page) : Page :=
  match modalOverlay pg with
  | Some _ => pg
  | None => setModal (mkModal DisplayNone "") pg
  end.

Definition closeModal (pg : Page) : Page :=
  match modalOverlay pg with
  | Some m => setModal (mkModal DisplayNone (modalInner m)) pg
  | None => pg
  end.

(** Character class [[a-zA-Z0-9_-]]. *)
Definition isIdChar (c : ascii) : bool :=
  isLower c || isUpper c || isDigit c ||
  Ascii.eqb c "_" || Ascii.eqb c "-".

(** The regex [embed\/([a-zA-Z0-9_-]+)] tried at the start of [s]: the
    greedy capture, when there is one. *)
Definition matchEmbedAt (s : string) : option string :=
  match stripPrefix "embed/" s with
  | Some rest =>
      match takeWhile isIdChar rest with
      | EmptyString => None
      | id => Some id
      end
  | None => None
  end.

(** [url.match(/embed\/([a-zA-Z0-9_-]+)/)?.[1]]: group 1 of the leftmost
    match, [undefined] when nothing matches. *)
Fixpoint matchEmbedId (s : string) : JsVal :=
  match matchEmbedAt s with
  | Some id => JStr id
  | None =>
      match s with
      | EmptyString => JUndefined
      | String _ s' => matchEmbedId s'
      end
  end.

Fixpoint arrayIncludesStr (elems : list JsVal) (lit : string) : bool :=
  match elems with
  | [] => false
  | x :: rest => strictEqStr x lit || arrayIncludesStr rest lit
  end.

(** [url.includes('embed')]: a string method on strings, an array method on
    arrays, and not a function on anything else JSON can produce. *)
Definition callIncludes (url : JsVal) (lit : string) : Completion bool :=
  match url with
  | JStr s => Normal (includes s lit)
  | JArr elems => Normal (arrayIncludesStr elems lit)
  | _ => Throw (EngineError NotCallable)
  end.

(** [url.match(...)?.[1]]: only strings have [match]. *)
Definition callMatchEmbed (url : JsVal) : Completion JsVal :=
  match url with
  | JStr s => Normal (matchEmbedId s)
  | _ => Throw (EngineError NotCallable)
  end.

(** [videoId ? `https://www.youtube.com/watch?v=${videoId}` : item.url] *)
Definition watchUrl (videoId url : JsVal) : Completion JsVal :=
  if truthy videoId then
    id <- toString videoId ;;
    Normal (JStr ("https://www.youtube.com/watch?v=" ++ id))
  else Normal url.

Definition modalImage (src alt : string) : string :=
  "<img " ++ attr "src" src ++ " " ++ attr "alt" alt ++ " />".

Definition videoEmbed (url title watch : string) : string :=
  ln 4 ("<div " ++ attr "class" "video-embed" ++ ">") ++
  ln 5 ("<iframe " ++ attr "src" url ++ " " ++ attr "title" title ++ " " ++
        attr "frameborder" "0" ++ " allowfullscreen></iframe>") ++
  ln 4 "</div>" ++
  ln 4 ("<p " ++ attr "class" "video-fallback" ++ ">") ++
  ln 5 ("<small>If the video doesn't load, <a " ++ attr "href" watch ++ " " ++
        attr "target" "_blank" ++ " " ++ attr "rel" "noopener" ++
        ">watch it on YouTube</a></small>") ++
  ln 4 "</p>" ++
  ln 3 "".

Definition videoLink (url : string) : string :=
  ln 4 "<p>" ++
  ln 5 "This is a video. Watch here:" ++
  ln 5 ("<a " ++ attr "href" url ++ " " ++ attr "target" "_blank" ++ " " ++
        attr "rel" "noopener" ++ ">" ++ url ++ "</a>") ++
  ln 4 "</p>" ++
  ln 3 "".

Definition videoUnavailable : string := "<p>Video unavailable.</p>".
Definition unsupportedMedia : string := "<p>Unsupported media type.</p>".

(** The [mediaHTML] of the modal, [title] being [item.title || 'Untitled']. *)
Definition mediaHTML (item title : JsVal) : Completion string :=
  media_type <- getProp item "media_type" ;;
  if strictEqStr media_type "image" then
    hdurl <- getProp item "hdurl" ;;
    url <- getProp item "url" ;;
    let bigSrc := jsOr (jsOr hdurl url) (JStr "") in
    src <- toString bigSrc ;;
    alt <- toString title ;;
    Normal (modalImage src alt)
  else if strictEqStr media_type "video" then
    url <- getProp item "url" ;;
    embeddable <- (if truthy url then callIncludes url "embed"
                   else Normal false) ;;
    if embeddable then
      videoId <- callMatchEmbed url ;;
      watch <- watchUrl videoId url ;;
      src <- toString url ;;
      label <- toString title ;;
      href <- toString watch ;;
      Normal (videoEmbed src label href)
    else if truthy url then
      href <- toString url ;;
      Normal (videoLink href)
    else
      Normal videoUnavailable
  else
    Normal unsupportedMedia.

Definition modalMarkup (title date media explanation : string) : string :=
  ln 2 ("<h2>" ++ title ++ "</h2>") ++
  ln 2 ("<p " ++ attr "class" "modal-date" ++ ">" ++ date ++ "</p>") ++
  ln 2 ("<div " ++ attr "class" "modal-media" ++ ">" ++ media ++ "</div>") ++
  ln 2 ("<p " ++ attr "class" "modal-explanation" ++ ">" ++ explanation ++
        "</p>") ++
  ln 1 "".

(** Everything [openModal] computes between [ensureModal()] and the
    assignment to [inner.innerHTML]. *)
Definition modalInnerHTML (item : JsVal) : Completion string :=
  t <- getProp item "title" ;;
  let title := jsOr t (JStr "Untitled") in
  dt <- getProp item "date" ;;
  let date := formatDate (jsOr dt (JStr "")) in
  ex <- getProp item "explanation" ;;
  let explanation := jsOr ex (JStr "") in
  media <- mediaHTML item title ;;
  heading <- toString title ;;
  text <- toString explanation ;;
  Normal (modalMarkup heading date media text).

Definition openModal (item : JsVal) (pg : Page) : Completion unit * Page :=
  let pg1 := ensureModal pg in
  match modalInnerHTML item with
  | Normal html => (Normal tt, setModal (mkModal DisplayFlex html) pg1)
  | Throw e => (Throw e, pg1)
  end.

(* ================================================================== *)
(** ** 10) fetchAndRender                                              *)
(* ================================================================== *)

(** What [await res.json()] yields. *)
Inductive Body : Type :=
| BodyInvalid                 (* the promise rejects: not JSON *)
| BodyJson (data : JsVal).

(** What [await fetch(apodData)] yields. *)
Inductive FetchOutcome : Type :=
| Rejected                              (* the promise rejects *)
| Response (status : Z) (body : Body).

(** [res.ok]: the status is in the range 200-299. *)
Definition ok (status : Z) : bool := (200 <=? status) && (status <=? 299).

Definition errorMarkup (message : string) : string :=
  ln 3 ("<div " ++ attr "class" "placeholder" ++ ">") ++
  ln 4 ("<div " ++ attr "class" "placeholder-icon" ++ ">⚠️</div>") ++
  ln 4 "<p>Sorry, we couldn’t load space photos. Please try again.</p>" ++
  ln 4 ("<p><small>" ++ message ++ "</small></p>") ++
  ln 3 "</div>" ++
  ln 2 "".

Section FetchAndRender.

(** The message text the engine gives to its own errors. *)
Variable faultMessage : EngineFault -> string.

(** [err.message] *)
Definition errMessage (e : JsError) : string :=
  match e with
  | UserError message => message
  | EngineError fault => faultMessage fault
  end.

(** The body of the [try] block, after [showLoading()]. *)
Definition tryFetch (vr : Variant) (outcome : FetchOutcome) (pg : Page)
  : Completion unit * Page :=
  match outcome with
  | Rejected => (Throw (EngineError FetchFailed), pg)
  | Response status body =>
      if negb (ok status) then
        (Throw (UserError ("Network error: " ++ numberToString (Some status))),
         pg)
      else
        match body with
        | BodyInvalid => (Throw (EngineError BodyNotJson), pg)
        | BodyJson (JArr data) =>
            let pg1 := setItems data pg in
            renderGallery vr (apodItems pg1) pg1
        | BodyJson _ =>
            (Throw (UserError "Unexpected data format (expected an array)."),
             pg)
        end
  end.

(** The page once the promise returned by [fetchAndRender()] has settled. *)
Definition fetchAndRender (vr : Variant) (outcome : FetchOutcome) (pg : Page)
  : Page :=
  match tryFetch vr outcome (showLoading pg) with
  | (Normal _, pg') => pg'
  | (Throw err, pg') => setGallery (errorMarkup (errMessage err)) pg'
  end.

End FetchAndRender.

(* ================================================================== *)
(** ** 11) Event listeners on the gallery                              *)
(* ================================================================== *)

(** The element found by [e.target.closest('.gallery-item')], reduced to
    what [getAttribute('data-index')] returns for it ([None] for [null]). *)
Record Card : Type := mkCard { dataIndex : option string }.

(** [parseInt(card.getAttribute('data-index'), 10)]; a [null] attribute is
    first converted to the string ["null"]. *)
Definition cardIndex (card : Card) : Number :=
  parseInt (match dataIndex card with
            | Some s => s
            | None => textOf JNull
            end).

(** The click listener; [closest] is the card the event target lies in. *)
Definition onGalleryClick (closest : option Card) (pg : Page)
  : Completion unit * Page :=
  match closest with
  | None => (Normal tt, pg)
  | Some card =>
      let index := cardIndex card in
      let item := arrayGet (apodItems pg) index in
      if truthy item then openModal item pg else (Normal tt, pg)
  end.

(** The keydown listener. *)
Definition onGalleryKeydown (key : string) (closest : option Card) (pg : Page)
  : Completion unit * Page :=
  if negb (String.eqb key "Enter") then (Normal tt, pg)
  else
    match closest with
    | None => (Normal tt, pg)
    | Some card =>
        let index := cardIndex card in
        let item := arrayGet (apodItems pg) index in
        if truthy item then openModal item pg else (Normal tt, pg)
    end.

(** A selection event on the gallery, as the spec names it. *)
Inductive Selection : Type :=
| Click (closest : option Card)
| KeyDown (key : string) (closest : option Card).

Definition dispatch (ev : Selection) (pg : Page) : Completion unit * Page :=
  match ev with
  | Click closest => onGalleryClick closest pg
  | KeyDown key closest => onGalleryKeydown key closest pg
  end.

(* ================================================================== *)
(** ** Specification vocabulary                                        *)
(* ================================================================== *)

(** [s] is [y-m-d] with four, two and two decimal digits: the strings of
    the language [^\d{4}-\d{2}-\d{2}$], with their three fields. *)
Definition IsoDate (s y m d : string) : Prop :=
  s = y ++ "-" ++ m ++ "-" ++ d /\
  String.length y = 4%nat /\ String.length m = 2%nat /\
  String.length d = 2%nat /\
  allDigits y = true /\ allDigits m = true /\ allDigits d = true.

(** A value that is a string of that language. *)
Definition MatchesIso (v : JsVal) : Prop :=
  exists s y m d, v = JStr s /\ IsoDate s y m d.

(** The month abbreviations, as plain strings. *)
Definition monthNames : list string :=
  ["Jan"; "Feb"; "Mar"; "Apr"; "May"; "Jun";
   "Jul"; "Aug"; "Sep"; "Oct"; "Nov"; "Dec"].

Definition clamp (lo hi x : Z) : Z := Z.max lo (Z.min hi x).

(** The number a string of decimal digits denotes. *)
Definition numeral (s : string) : Z := digitsValue 0 s.

(** A two-digit day field without its leading zero. *)
Definition dayText (d : string) : string :=
  match d with
  | String "0"%char (String c EmptyString) => String c EmptyString
  | _ => d
  end.

Definition nullish (v : JsVal) : bool :=
  match v with
  | JUndefined | JNull => true
  | _ => false
  end.

(** [item.key] for an item that is not [null]/[undefined]. *)
Definition field (item : JsVal) (key : string) : JsVal :=
  match item with
  | JObj props => lookupProp props key
  | _ => JUndefined
  end.

(** The first of two values that is present (truthy), the empty string
    when neither is. *)
Definition firstPresent (a b : JsVal) : JsVal :=
  if truthy a then a
  else if truthy b then b
  else JStr "".

(** How every card begins: a line break, three tabs, and the opening tag up
    to its [data-index]. *)
Definition cardOpening (index : nat) : string :=
  nl ++ tab ++ tab ++ tab ++
  "<div class=" ++ dq ++ "gallery-item" ++ dq ++
  " data-index=" ++ dq ++ numberToString (Some (Z.of_nat index)) ++ dq.

(** Every field that a card interpolates can be converted to a string, and
    the item itself is not [null]. *)
Definition Renderable (item : JsVal) : Prop :=
  nullish item = false /\
  printable (field item "title") = true /\
  printable (field item "url") = true /\
  printable (field item "hdurl") = true /\
  printable (field item "thumbnail_url") = true.

(** The markup the page is expected to carry, spelled out. *)

(** The image of a grid card. *)
Definition gridImgTag (src alt : string) : string :=
  "<img src=" ++ dq ++ src ++ dq ++ " alt=" ++ dq ++ alt ++ dq ++
  " loading=" ++ dq ++ "lazy" ++ dq ++ " />".

(** The large image of the modal. *)
Definition modalImgTag (src alt : string) : string :=
  "<img src=" ++ dq ++ src ++ dq ++ " alt=" ++ dq ++ alt ++ dq ++ " />".

(** The embedded player. *)
Definition iframeTag (src title : string) : string :=
  "<iframe src=" ++ dq ++ src ++ dq ++ " title=" ++ dq ++ title ++ dq ++
  " frameborder=" ++ dq ++ "0" ++ dq ++ " allowfullscreen></iframe>".

(** The fallback link beside the embedded player. *)
Definition fallbackAnchor (href : string) : string :=
  "<a href=" ++ dq ++ href ++ dq ++ " target=" ++ dq ++ "_blank" ++ dq ++
  " rel=" ++ dq ++ "noopener" ++ dq ++ ">watch it on YouTube</a>".

(** The plain link to a video that is not embedded. *)
Definition plainAnchor (url : string) : string :=
  "<a href=" ++ dq ++ url ++ dq ++ " target=" ++ dq ++ "_blank" ++ dq ++
  " rel=" ++ dq ++ "noopener" ++ dq ++ ">" ++ url ++ "</a>".

(** The heading and the explanation paragraph of the modal. *)
Definition headingTag (title : string) : string :=
  "<h2>" ++ title ++ "</h2>".

Definition explanationTag (text : string) : string :=
  "<p class=" ++ dq ++ "modal-explanation" ++ dq ++ ">" ++ text ++ "</p>".

(** The media block inside its container. *)
Definition mediaTag (media : string) : string :=
  "<div class=" ++ dq ++ "modal-media" ++ dq ++ ">" ++ media ++ "</div>".




(** [index] is a position of [items] that holds an item.  Feed items are
    objects, and every object counts; an entry such as [null] does not. *)
Definition ResolvesTo (items : list JsVal) (index : Number) (item : JsVal)
  : Prop :=
  exists z, index = Some z /\ 0 <= z /\
            nth_error items (Z.to_nat z) = Some item /\
            truthy item = true.

(** [ev] is a click, or an Enter key press, on or inside [card]. *)
Definition Selects (ev : Selection) (card : Card) : Prop :=
  ev = Click (Some card) \/ ev = KeyDown "Enter" (Some card).


(* ================================================================== *)
(** ** Sample data                                                     *)
(* ================================================================== *)

Definition sampleImage : JsVal :=
  JObj [("media_type", JStr "image"); ("title", JStr "Orion");
        ("date", JStr "2025-10-27");
        ("url", JStr "https://apod.example/orion.jpg");
        ("hdurl", JStr "https://apod.example/orion_hd.jpg");
        ("explanation", JStr "A nebula.")].

Definition sampleVideo : JsVal :=
  JObj [("media_type", JStr "video"); ("title", JStr "");
        ("date", JStr "2025-01-05");
        ("url", JStr "https://www.youtube.com/embed/abc123")].


Definition sampleAsteroid : JsVal :=
  JObj [("media_type", JStr "asteroid"); ("title", JStr "Bennu");
        ("date", JStr "0042-01-07")].

Definition sampleItems : list JsVal :=
  [sampleImage; sampleVideo; sampleAsteroid].

(** The page as the script finds it: nothing fetched, no modal built. *)
Definition freshPage : Page := mkPage [] "" None.

Definition sampleFaultMessage (fault : EngineFault) : string :=
  match fault with
  | FetchFailed => "Failed to fetch"
  | BodyNotJson => "Unexpected token"
  | PropertyOfNullish => "Cannot read properties of null"
  | NotCallable => "is not a function"
  | NotPrimitive => "Cannot convert object to primitive value"
  end.

(* ================================================================== *)
(** ** The page as an event-driven system                              *)
(* ================================================================== *)

(** [fetchAndRender] runs in two turns of the event loop: [showLoading()]
    at the call, and everything after the last [await] (or the [catch]
    block) once the promises have settled.  This is the second turn; it
    reads nothing that the first one wrote. *)
Definition fetchSettle (faultMessage : EngineFault -> string) (vr : Variant)
  (outcome : FetchOutcome) (pg : Page) : Page :=
  match tryFetch vr outcome pg with
  | (Normal _, pg') => pg'
  | (Throw err, pg') => setGallery (errorMarkup (errMessage faultMessage err)) pg'
  end.

(** The listeners that [ensureModal] installs: a click on the close button,
    a click on the overlay ([onOverlayItself] tells whether [e.target] is
    the overlay and not something inside it), a key pressed anywhere. *)
Inductive ModalEvent : Type :=
| CloseButtonClick
| OverlayClick (onOverlayItself : bool)
| DocumentKeydown (key : string).

(** Before [ensureModal] has run there is neither element nor listener. *)
Definition onModalEvent (ev : ModalEvent) (pg : Page) : Page :=
  match modalOverlay pg with
  | None => pg
  | Some _ =>
      match ev with
      | CloseButtonClick => closeModal pg
      | OverlayClick onOverlayItself =>
          if onOverlayItself then closeModal pg else pg
      | DocumentKeydown key =>
          if String.eqb key "Escape" then closeModal pg else pg
      end
  end.

(** What can happen to the page: the fetch button is clicked, a pending
    fetch settles, a card is selected, a modal listener fires. *)
Inductive Action : Type :=
| StartFetch
| SettleFetch (outcome : FetchOutcome)
| Select (ev : Selection)
| ModalAct (ev : ModalEvent).

(** One turn of the event loop.  An exception thrown by a listener is
    reported by the browser and the page lives on in the state reached. *)
Definition step (faultMessage : EngineFault -> string) (vr : Variant)
  (a : Action) (pg : Page) : Page :=
  match a with
  | StartFetch => showLoading pg
  | SettleFetch outcome => fetchSettle faultMessage vr outcome pg
  | Select ev => snd (dispatch ev pg)
  | ModalAct ev => onModalEvent ev pg
  end.

Definition run (faultMessage : EngineFault -> string) (vr : Variant)
  (acts : list Action) (pg : Page) : Page :=
  fold_left (fun p a => step faultMessage vr a p) acts pg.

(** The three triggers that dismiss the modal. *)
Definition Dismisses (ev : ModalEvent) : Prop :=
  ev = CloseButtonClick \/ ev = OverlayClick true \/
  ev = DocumentKeydown "Escape".

(** The ways the [try] block fails before it stores anything, each with the
    text that ends up in [err.message]. *)
Inductive FetchFailure (faultMessage : EngineFault -> string)
  : FetchOutcome -> string -> Prop :=
| FailTransport :
    FetchFailure faultMessage Rejected (faultMessage FetchFailed)
| FailStatus (status : Z) (body : Body) :
    ok status = false ->
    FetchFailure faultMessage (Response status body)
                 ("Network error: " ++ numberToString (Some status))
| FailBody (status : Z) :
    ok status = true ->
    FetchFailure faultMessage (Response status BodyInvalid)
                 (faultMessage BodyNotJson)
| FailShape (status : Z) (data : JsVal) :
    ok status = true ->
    (forall elems, data <> JArr elems) ->
    FetchFailure faultMessage (Response status (BodyJson data))
                 "Unexpected data format (expected an array).".

(** A response that puts at least one element into [apodItems]. *)
Definition DeliversItems (outcome : FetchOutcome) : Prop :=
  exists status first rest,
    outcome = Response status (BodyJson (JArr (first :: rest))) /\
    ok status = true.

Definition sampleVideoThumb : JsVal :=
  JObj [("media_type", JStr "video"); ("title", JStr "Launch");
        ("date", JStr "2025-01-06");
        ("url", JStr "https://vimeo.example/v/42");
        ("thumbnail_url", JStr "https://apod.example/launch.jpg")].

Definition sampleVideoBadUrl : JsVal :=
  JObj [("media_type", JStr "video"); ("title", JStr "Broken");
        ("url", JNum 42)].

(** Clicks, key presses and fetches that bring no element. *)
Definition sampleQuietActs : list Action :=
  [Select (Click (Some (mkCard (Some "0")))); StartFetch;
   SettleFetch (Response 503 BodyInvalid);
   Select (KeyDown "Enter" (Some (mkCard (Some "0"))));
   SettleFetch (Response 200 (BodyJson (JArr [])));
   ModalAct (DocumentKeydown "Escape")].

(* ================================================================== *)
(** ** Strings and numbers: basic facts                                *)
(* ================================================================== *)

Lemma isDigit_cases (c : ascii) :
  isDigit c = true ->
  In c ["0"; "1"; "2"; "3"; "4"; "5"; "6"; "7"; "8"; "9"]%char.
Proof.
  destruct c as [[] [] [] [] [] [] [] []]; intros H;
    try discriminate H; simpl; tauto.
Qed.

Lemma append_assoc (a b c : string) : (a ++ b) ++ c = a ++ (b ++ c).
Proof.
  induction a as [|x a IH]; simpl; [reflexivity | now rewrite IH].
Qed.

Lemma append_empty_r (a : string) : a ++ "" = a.
Proof.
  induction a as [|x a IH]; simpl; [reflexivity | now rewrite IH].
Qed.

Lemma startsWith_app (p r : string) : startsWith p (p ++ r) = true.
Proof.
  induction p as [|c p IH]; simpl; [reflexivity|].
  now rewrite Ascii.eqb_refl, IH.
Qed.

Lemma includes_here (t r : string) : includes (t ++ r) t = true.
Proof.
  destruct t as [|c t]; destruct r; simpl;
    rewrite ?Ascii.eqb_refl, ?startsWith_app; reflexivity.
Qed.

Lemma includes_app_l (a s t : string) :
  includes s t = true -> includes (a ++ s) t = true.
Proof.
  intros H. induction a as [|c a IH]; simpl; [exact H|].
  rewrite IH. apply orb_true_r.
Qed.

Lemma includes_middle (a t b : string) : includes (a ++ t ++ b) t = true.
Proof. apply includes_app_l, includes_here. Qed.

Lemma takeWhile_all (f : ascii -> bool) (s : string) :
  (forall c, In c (list_ascii_of_string s) -> f c = true) ->
  takeWhile f s = s.
Proof.
  induction s as [|c s IH]; simpl; intros H; [reflexivity|].
  rewrite (H c) by now left.
  f_equal. apply IH. intros x Hx. apply H. now right.
Qed.

Lemma allDigits_In (s : string) :
  allDigits s = true ->
  forall c, In c (list_ascii_of_string s) -> isDigit c = true.
Proof.
  induction s as [|x s IH]; simpl; intros H c Hc; [contradiction|].
  apply andb_true_iff in H. destruct H as [Hx Hs].
  destruct Hc as [<-|Hc]; [exact Hx | now apply IH].
Qed.

Lemma allDigits_app (a b : string) :
  allDigits (a ++ b) = allDigits a && allDigits b.
Proof.
  induction a as [|c a IH]; simpl; [reflexivity|].
  now rewrite IH, andb_assoc.
Qed.

(** On a non-empty string of digits [parseInt] is the denoted number. *)
Lemma parseInt_digits (s : string) :
  allDigits s = true -> s <> "" -> parseInt s = Some (numeral s).
Proof.
  intros Hd Hne. destruct s as [|c s]; [contradiction|].
  pose proof (takeWhile_all isDigit _ (allDigits_In _ Hd)) as Htw.
  simpl in Hd. apply andb_true_iff in Hd. destruct Hd as [Hc _].
  unfold parseInt, numeral.
  apply isDigit_cases in Hc. simpl in Hc.
  repeat (destruct Hc as [<-|Hc];
          [ simpl skipWhite; cbv iota; rewrite Htw; f_equal;
            apply Z.mul_1_l |]).
  contradiction.
Qed.

(** *** Finding a fragment in a piece of markup *)

Lemma startsWith_nil (s : string) : startsWith "" s = true.
Proof. now destruct s. Qed.

Lemma startsWith_cons (c : ascii) (p s : string) :
  startsWith p s = true -> startsWith (String c p) (String c s) = true.
Proof. intros H. simpl. now rewrite Ascii.eqb_refl. Qed.

Lemma startsWith_common (a p s : string) :
  startsWith p s = true -> startsWith (a ++ p) (a ++ s) = true.
Proof.
  intros H. induction a as [|c a IH]; simpl; [exact H|].
  now rewrite Ascii.eqb_refl, IH.
Qed.

Lemma startsWith_self (p : string) : startsWith p p = true.
Proof.
  induction p as [|c p IH]; simpl; [reflexivity|].
  now rewrite Ascii.eqb_refl.
Qed.

Lemma includes_start (s t : string) :
  startsWith t s = true -> includes s t = true.
Proof. intros H. destruct s; simpl; now rewrite H. Qed.

Lemma includes_skip (c : ascii) (s t : string) :
  includes s t = true -> includes (String c s) t = true.
Proof. intros H. simpl. rewrite H. apply orb_true_r. Qed.

(** Puts two pieces of markup in the same form: builders unfolded,
    concatenations nested to the right, literal text spelled character by
    character. *)
Ltac spell :=
  rewrite ?append_assoc; cbn [append];
  rewrite ?append_assoc; cbn [append].

Ltac starts_here :=
  repeat first [apply startsWith_cons | apply startsWith_common];
  first [apply startsWith_nil | apply startsWith_app | apply startsWith_self].

(** Looks for the fragment at every position of the markup. *)
Ltac find_fragment :=
  first
    [ apply includes_start; solve [starts_here]
    | match goal with
      | |- includes (String _ _) _ = true => apply includes_skip; find_fragment
      | |- includes (_ ++ _) _ = true => apply includes_app_l; find_fragment
      end ].
(* ================================================================== *)
(** ** The date pattern                                                *)
(* ================================================================== *)

Lemma takeDigits_app (n : nat) (p r : string) :
  String.length p = n -> allDigits p = true ->
  takeDigits n (p ++ r) = Some (p, r).
Proof.
  intros <-. induction p as [|c p IH]; simpl; intros H; [reflexivity|].
  apply andb_true_iff in H. destruct H as [Hc Hp].
  now rewrite Hc, IH.
Qed.

Lemma takeDigits_inv (n : nat) (s p r : string) :
  takeDigits n s = Some (p, r) ->
  s = p ++ r /\ String.length p = n /\ allDigits p = true.
Proof.
  revert s p r. induction n as [|n IH]; simpl; intros s p r H.
  - injection H as <- <-. auto.
  - destruct s as [|c s]; [discriminate|].
    destruct (isDigit c) eqn:Hc; [|discriminate].
    destruct (takeDigits n s) as [[ds rest]|] eqn:Ht; [|discriminate].
    injection H as <- <-.
    destruct (IH _ _ _ Ht) as (-> & <- & Hd).
    simpl. now rewrite Hc, Hd.
Qed.

Lemma expectChar_inv (c : ascii) (s r : string) :
  expectChar c s = Some r -> s = String c r.
Proof.
  destruct s as [|c' s]; simpl; [discriminate|].
  destruct (Ascii.eqb c c') eqn:E; [|discriminate].
  apply Ascii.eqb_eq in E. now intros [= <-]; subst.
Qed.

(** The matcher accepts exactly the strings of the pattern, and captures
    their three fields. *)
Lemma isoDateMatch_sound (s y m d : string) :
  isoDateMatch s = Some (y, m, d) -> IsoDate s y m d.
Proof.
  unfold isoDateMatch, IsoDate.
  destruct (takeDigits 4 s) as [[y0 r1]|] eqn:H1; [|discriminate].
  destruct (expectChar "-" r1) as [r2|] eqn:H2; [|discriminate].
  destruct (takeDigits 2 r2) as [[m0 r3]|] eqn:H3; [|discriminate].
  destruct (expectChar "-" r3) as [r4|] eqn:H4; [|discriminate].
  destruct (takeDigits 2 r4) as [[d0 [|? ?]]|] eqn:H5; try discriminate.
  intros [= <- <- <-].
  apply takeDigits_inv in H1, H3, H5.
  apply expectChar_inv in H2, H4.
  destruct H1 as (-> & ? & ?), H3 as (-> & ? & ?), H5 as (-> & ? & ?).
  subst r1 r3.
  repeat split; try assumption.
  now rewrite append_empty_r.
Qed.

Lemma isoDateMatch_complete (s y m d : string) :
  IsoDate s y m d -> isoDateMatch s = Some (y, m, d).
Proof.
  intros (-> & Ly & Lm & Ld & Dy & Dm & Dd).
  unfold isoDateMatch.
  rewrite (takeDigits_app 4 y _ Ly Dy). cbn -[takeDigits].
  rewrite (takeDigits_app 2 m _ Lm Dm). cbn -[takeDigits].
  rewrite <- (append_empty_r d) at 1.
  rewrite (takeDigits_app 2 d _ Ld Dd). reflexivity.
Qed.

Lemma isoDateMatch_none (s : string) :
  (forall y m d, ~ IsoDate s y m d) -> isoDateMatch s = None.
Proof.
  intros H. destruct (isoDateMatch s) as [[[y m] d]|] eqn:E; [|reflexivity].
  exfalso. exact (H y m d (isoDateMatch_sound _ _ _ _ E)).
Qed.

(** A field of two digits, spelled out. *)
Lemma two_digits (f : string) :
  String.length f = 2%nat -> allDigits f = true ->
  exists a b, f = String a (String b "") /\
              isDigit a = true /\ isDigit b = true.
Proof.
  destruct f as [|a [|b [|? ?]]]; try discriminate. intros _ H.
  simpl in H. rewrite andb_true_r in H. apply andb_true_iff in H.
  exists a, b. tauto.
Qed.

(** The month index stays inside the table, whatever the two digits are. *)
Lemma month_lookup (z : Z) :
  textOf (arrayGet months
              (mathMax (Some 0) (mathMin (Some 11) (numSub (Some z) (Some 1)))))
  = nth (Z.to_nat (clamp 0 11 (z - 1))) monthNames "undefined".
Proof.
  unfold clamp. simpl mathMax.
  set (i := Z.max 0 (Z.min 11 (z - 1))).
  assert (Hi : 0 <= i <= 11) by (unfold i; lia).
  unfold arrayGet. destruct (i <? 0) eqn:E; [lia|].
  assert (Hn : (Z.to_nat i < 12)%nat) by lia.
  destruct (Z.to_nat i) as [|[|[|[|[|[|[|[|[|[|[|[|n]]]]]]]]]]]];
    try reflexivity.
  lia.
Qed.

(** [String(parseInt(d, 10))] drops the leading zero of a two-digit field. *)
Lemma day_text (d : string) :
  String.length d = 2%nat -> allDigits d = true ->
  numberToString (parseInt d) = dayText d.
Proof.
  intros L D. destruct (two_digits d L D) as (a & b & -> & Ha & Hb).
  apply isDigit_cases in Ha, Hb. simpl in Ha, Hb.
  intuition (subst; reflexivity).
Qed.

(** What [formatDate] computes on a string of the pattern. *)
Lemma formatDate_matched (s y m d : string) :
  IsoDate s y m d ->
  formatDate (JStr s) =
    nth (Z.to_nat (clamp 0 11 (numeral m - 1))) monthNames "undefined"
    ++ " " ++ dayText d ++ ", " ++ y.
Proof.
  intros H. pose proof (isoDateMatch_complete _ _ _ _ H) as E.
  destruct H as (_ & _ & Lm & Ld & _ & Dm & Dd).
  unfold formatDate. rewrite E.
  rewrite (parseInt_digits m Dm) by (destruct m; [discriminate|congruence]).
  now rewrite month_lookup, (day_text d Ld Dd).
Qed.

Lemma clamp_range (lo hi x : Z) : lo <= hi -> lo <= clamp lo hi x <= hi.
Proof. unfold clamp. lia. Qed.

Lemma dayText_no_leading_zero (d : string) :
  String.length d = 2%nat ->
  dayText d = "0" \/ startsWith "0" (dayText d) = false.
Proof.
  destruct d as [|a [|b [|? ?]]]; try discriminate. intros _.
  destruct (Ascii.eqb a "0") eqn:Ea.
  - apply Ascii.eqb_eq in Ea. subst a.
    change (dayText (String "0" (String b ""))) with (String b "").
    destruct (Ascii.eqb "0" b) eqn:Eb.
    + apply Ascii.eqb_eq in Eb. subst b. now left.
    + right. cbn [startsWith]. now rewrite Eb.
  - right.
    assert (dayText (String a (String b "")) = String a (String b "")) as ->.
    { destruct a as [[] [] [] [] [] [] [] []]; try reflexivity.
      discriminate Ea. }
    cbn [startsWith]. rewrite Ascii.eqb_sym, Ea. reflexivity.
Qed.

(* ================================================================== *)
(** ** formatDate                                                      *)
(* ================================================================== *)

(** C1. For every string matching [^\d{4}-\d{2}-\d{2}$], [formatDate]
    returns ["{MonAbbrev} {day}, {year}"]: the abbreviation is the entry of
    the fixed 12-name table at index clamp(month - 1, 0, 11), an index that
    is always inside the table, and the day is the day field without its
    leading zero. *)
Theorem formatDate_iso (s y m d : string) :
  IsoDate s y m d ->
  let idx := Z.to_nat (clamp 0 11 (numeral m - 1)) in
  formatDate (JStr s) = nth idx monthNames "" ++ " " ++ dayText d ++ ", " ++ y
  /\ (idx < List.length monthNames)%nat
  /\ List.length monthNames = 12%nat
  /\ dayText d = numberToString (Some (numeral d))
  /\ (dayText d = "0" \/ startsWith "0" (dayText d) = false).
Proof.
  intros H idx.
  assert (Hidx : (idx < 12)%nat).
  { unfold idx. pose proof (clamp_range 0 11 (numeral m - 1)). lia. }
  pose proof H as (_ & _ & _ & Ld & _ & _ & Dd).
  repeat split.
  - rewrite (formatDate_matched _ _ _ _ H). fold idx.
    now rewrite (nth_indep monthNames "undefined" "" Hidx).
  - exact Hidx.
  - rewrite <- (day_text d Ld Dd).
    now rewrite (parseInt_digits d Dd) by (destruct d; [discriminate|congruence]).
  - now apply dayText_no_leading_zero.
Qed.

Lemma formatDate_iso_witness :
  IsoDate "2025-10-27" "2025" "10" "27" /\
  formatDate (JStr "2025-10-27") = "Oct 27, 2025" /\
  formatDate (JStr "2025-01-05") = "Jan 5, 2025".
Proof.
  assert (H : IsoDate "2025-10-27" "2025" "10" "27")
    by (repeat split; reflexivity).
  split; [exact H|]. split.
  - exact (proj1 (formatDate_iso _ _ _ _ H)).
  - reflexivity.
Defined.

(** Out-of-range months degrade to the nearest end of the table. *)
Example formatDate_month_clamped :
  formatDate (JStr "2025-00-10") = "Jan 10, 2025" /\
  formatDate (JStr "2025-13-10") = "Dec 10, 2025" /\
  formatDate (JStr "2025-99-00") = "Dec 0, 2025".
Proof. repeat split; reflexivity. Qed.

(** C2. [formatDate] never fails: it is a total function to strings, and on
    every input outside the pattern it returns the empty string when the
    input is not a string and the input itself when it is a string. *)
Theorem formatDate_fallback (v : JsVal) :
  ~ MatchesIso v ->
  formatDate v = match v with
                 | JStr s => s
                 | _ => ""
                 end.
Proof.
  intros H. destruct v; try reflexivity.
  unfold formatDate. rewrite isoDateMatch_none; [reflexivity|].
  intros y m d Hi. apply H. now exists s, y, m, d.
Qed.

Lemma not_iso_slashes : ~ MatchesIso (JStr "2025/10/27").
Proof.
  intros (s & y & m & d & [= <-] & Hi).
  apply isoDateMatch_complete in Hi. discriminate Hi.
Defined.

Lemma formatDate_fallback_witness :
  formatDate (JStr "2025/10/27") = "2025/10/27" /\
  formatDate (JNum 20251027) = "" /\
  formatDate JUndefined = "".
Proof.
  split; [exact (formatDate_fallback _ not_iso_slashes)|].
  split; apply formatDate_fallback; intros (s & y & m & d & E & _);
    discriminate E.
Defined.

(** C9. On every string of the pattern the year appears in the output as
    the four characters captured from the input, leading zeros included:
    the output ends with [", "] followed by the first four characters of
    the input. *)
Theorem formatDate_year_verbatim (s y m d : string) :
  IsoDate s y m d ->
  y = substring 0 4 s /\
  exists front, formatDate (JStr s) = front ++ ", " ++ y.
Proof.
  intros H. split.
  - destruct H as (-> & Ly & _).
    destruct y as [|a [|b [|c [|e [|? ?]]]]]; try discriminate Ly.
    reflexivity.
  - rewrite (formatDate_matched _ _ _ _ H).
    exists (nth (Z.to_nat (clamp 0 11 (numeral m - 1))) monthNames "undefined"
            ++ " " ++ dayText d).
    rewrite append_assoc. reflexivity.
Qed.

Lemma formatDate_year_verbatim_witness :
  IsoDate "0042-01-07" "0042" "01" "07" /\
  "0042" = substring 0 4 "0042-01-07" /\
  formatDate (JStr "0042-01-07") = "Jan 7, 0042".
Proof.
  assert (H : IsoDate "0042-01-07" "0042" "01" "07")
    by (repeat split; reflexivity).
  split; [exact H|]. split.
  - exact (proj1 (formatDate_year_verbatim _ _ _ _ H)).
  - reflexivity.
Defined.

(* ================================================================== *)
(** ** Rendering the gallery                                           *)
(* ================================================================== *)

Lemma getProp_field (item : JsVal) (key : string) :
  nullish item = false -> getProp item key = Normal (field item key).
Proof. destruct item; simpl; intros H; try discriminate H; reflexivity. Qed.

(** Resolves every property read of an item known not to be nullish. *)
Ltac read_fields H :=
  rewrite !(getProp_field _ _ H); cbn [bind].

Lemma strictEqStr_true (v : JsVal) (lit : string) :
  strictEqStr v lit = true <-> v = JStr lit.
Proof.
  destruct v; simpl; split; intros H; try discriminate H.
  - apply String.eqb_eq in H. now subst.
  - injection H as ->. apply String.eqb_refl.
Qed.

Lemma strictEqStr_false (v : JsVal) (lit : string) :
  v <> JStr lit -> strictEqStr v lit = false.
Proof.
  intros H. destruct (strictEqStr v lit) eqn:E; [|reflexivity].
  apply strictEqStr_true in E. contradiction.
Qed.

Lemma strictEqStr_false_inv (v : JsVal) (lit : string) :
  strictEqStr v lit = false -> v <> JStr lit.
Proof.
  intros H E. subst v. simpl in H. now rewrite String.eqb_refl in H.
Qed.

(** *** Conversion to text *)

Lemma toString_printable (v : JsVal) :
  printable v = true -> toString v = Normal (textOf v).
Proof. intros H. unfold toString. now rewrite H. Qed.

Lemma toString_unprintable (v : JsVal) :
  printable v = false -> toString v = Throw (EngineError NotPrimitive).
Proof. intros H. unfold toString. now rewrite H. Qed.

Lemma toString_inv (v : JsVal) (t : string) :
  toString v = Normal t -> printable v = true /\ t = textOf v.
Proof.
  unfold toString. destruct (printable v); [|discriminate].
  intros [= <-]. auto.
Qed.

(** What is falsy is a primitive, and prints. *)
Lemma falsy_printable (v : JsVal) : truthy v = false -> printable v = true.
Proof. destruct v; simpl; intros H; try reflexivity; discriminate H. Qed.

Lemma printable_jsOr (v : JsVal) (fallback : string) :
  printable v = true -> printable (jsOr v (JStr fallback)) = true.
Proof. intros H. unfold jsOr. now destruct (truthy v). Qed.

Lemma textOf_jsOr (v : JsVal) (fallback : string) :
  textOf (jsOr v (JStr fallback)) =
  if truthy v then textOf v else fallback.
Proof. unfold jsOr. now destruct (truthy v). Qed.

Lemma imgSrc_firstPresent (url hdurl : JsVal) :
  imgSrc url hdurl = firstPresent url hdurl.
Proof.
  unfold imgSrc, firstPresent, jsOr.
  destruct (truthy url) eqn:U; cbv iota; [now rewrite U | reflexivity].
Qed.

Lemma firstPresent_printable (a b : JsVal) :
  printable a = true -> printable b = true ->
  printable (firstPresent a b) = true.
Proof.
  intros Ha Hb. unfold firstPresent.
  destruct (truthy a); [exact Ha|]. now destruct (truthy b).
Qed.

(** Rewrites the conversions of values known to print. *)
Ltac print_fields :=
  repeat match goal with
  | H : printable ?v = true |- context [toString ?v] =>
      rewrite (toString_printable v H); cbn [bind]
  end.

(** *** The visual of a card, branch by branch *)

Lemma visualHTML_image (vr : Variant) (item title : JsVal) :
  nullish item = false ->
  field item "media_type" = JStr "image" ->
  printable (firstPresent (field item "url") (field item "hdurl")) = true ->
  printable title = true ->
  visualHTML vr item (field item "media_type") title =
  Normal (gridImage vr 3
            (textOf (firstPresent (field item "url") (field item "hdurl")))
            (textOf title)).
Proof.
  intros H Hm Hs Ht. unfold visualHTML. rewrite Hm.
  cbn [strictEqStr]. rewrite String.eqb_refl.
  read_fields H. rewrite imgSrc_firstPresent. now print_fields.
Qed.

Lemma visualHTML_video (vr : Variant) (item title : JsVal) :
  nullish item = false ->
  field item "media_type" = JStr "video" ->
  printable (field item "thumbnail_url") = true ->
  printable title = true ->
  visualHTML vr item (field item "media_type") title =
  Normal (if truthy (field item "thumbnail_url")
          then gridImage vr 4 (textOf (field item "thumbnail_url"))
                         (textOf title ++ " (video)")
          else videoPlaceholder).
Proof.
  intros H Hm Hs Ht. unfold visualHTML. rewrite Hm.
  cbn [strictEqStr]. change (String.eqb "video" "image") with false.
  rewrite String.eqb_refl. read_fields H.
  destruct (truthy (field item "thumbnail_url")); [|reflexivity].
  now print_fields.
Qed.

Lemma visualHTML_unsupported (vr : Variant) (item title : JsVal) :
  field item "media_type" <> JStr "image" ->
  field item "media_type" <> JStr "video" ->
  visualHTML vr item (field item "media_type") title =
  Normal unsupportedPlaceholder.
Proof.
  intros Hi Hv. unfold visualHTML.
  now rewrite (strictEqStr_false _ _ Hi), (strictEqStr_false _ _ Hv).
Qed.

(** The card around a visual that was built. *)
Lemma renderCard_of_visual (vr : Variant) (item : JsVal) (index : nat)
  (visual : string) :
  nullish item = false ->
  visualHTML vr item (field item "media_type") (field item "title")
    = Normal visual ->
  printable (field item "title") = true ->
  renderCard vr item index =
    Normal (cardMarkup index (textOf (field item "title"))
                       (formatDate (field item "date")) visual).
Proof.
  intros H Hv Ht. unfold renderCard. read_fields H.
  rewrite Hv. cbn [bind]. now print_fields.
Qed.

(** A card is rendered for every item whose fields print. *)
Lemma renderCard_renderable (vr : Variant) (item : JsVal) (index : nat) :
  Renderable item ->
  exists visual,
    renderCard vr item index =
      Normal (cardMarkup index (textOf (field item "title"))
                         (formatDate (field item "date")) visual).
Proof.
  intros (H & Ht & Hu & Hh & Hth).
  destruct (strictEqStr (field item "media_type") "image") eqn:Ei.
  { apply strictEqStr_true in Ei. eexists.
    apply renderCard_of_visual; try assumption.
    apply visualHTML_image; try assumption.
    now apply firstPresent_printable. }
  apply strictEqStr_false_inv in Ei.
  destruct (strictEqStr (field item "media_type") "video") eqn:Ev.
  { apply strictEqStr_true in Ev. eexists.
    apply renderCard_of_visual; try assumption.
    now apply visualHTML_video. }
  apply strictEqStr_false_inv in Ev. eexists.
  apply renderCard_of_visual; try assumption.
  now apply visualHTML_unsupported.
Qed.

Lemma renderCard_nullish (vr : Variant) (item : JsVal) (index : nat) :
  nullish item = true ->
  renderCard vr item index = Throw (EngineError PropertyOfNullish).
Proof. destruct item; simpl; intros H; try discriminate H; reflexivity. Qed.

(** Whatever [renderCard] returns is a card carrying the index it was
    given. *)
Lemma renderCard_shape (vr : Variant) (item : JsVal) (index : nat)
  (card : string) :
  renderCard vr item index = Normal card ->
  exists title date visual, card = cardMarkup index title date visual.
Proof.
  unfold renderCard.
  destruct (getProp item "media_type"); [|discriminate]. cbn [bind].
  destruct (getProp item "title"); [|discriminate]. cbn [bind].
  destruct (getProp item "date"); [|discriminate]. cbn [bind].
  destruct (visualHTML vr item a a0); [|discriminate]. cbn [bind].
  destruct (toString a0); [|discriminate]. cbn [bind].
  intros [= <-]. eauto.
Qed.

Lemma cardMarkup_opening (index : nat) (title date visual : string) :
  startsWith (cardOpening index) (cardMarkup index title date visual) = true.
Proof.
  unfold cardMarkup, cardOpening, ln, attr. cbn [tabs]. spell.
  starts_here.
Qed.

(** [Array.prototype.join('')] is plain concatenation. *)
Lemma joinEmpty_concat (parts : list string) :
  joinEmpty parts = String.concat "" parts.
Proof.
  unfold joinEmpty. induction parts as [|x [|y parts] IH]; cbn [fold_right];
    [reflexivity | apply append_empty_r |].
  cbn [fold_right] in IH. rewrite IH. reflexivity.
Qed.

(** [items.map] yields one card per item, in order, the card at position
    [i] being the one rendered for item [i] with index [k + i]. *)
Lemma mapCards_spec (vr : Variant) (items : list JsVal) :
  Forall Renderable items ->
  forall k, exists cards,
    mapCards vr items k = Normal cards /\
    List.length cards = List.length items /\
    forall i item, nth_error items i = Some item ->
      exists card, nth_error cards i = Some card /\
                   renderCard vr item (k + i) = Normal card.
Proof.
  induction 1 as [|item items Hi _ IH]; intros k.
  - exists []. repeat split. intros [|i] item H; discriminate H.
  - destruct (renderCard_renderable vr item k Hi) as (visual & Hc).
    destruct (IH (S k)) as (cards & Hm & Hl & Hn).
    eexists (_ :: cards). cbn [mapCards]. rewrite Hc, Hm. cbn [bind].
    split; [reflexivity|]. split; [simpl; now rewrite Hl|].
    intros [|i] it Hit; simpl in Hit.
    + injection Hit as <-. eexists. split; [reflexivity|].
      now rewrite Nat.add_0_r.
    + destruct (Hn i it Hit) as (card & Hcard & Hr).
      exists card. split; [exact Hcard|].
      now rewrite Nat.add_succ_r.
Qed.

(** [items.map] stops at the first item whose card cannot be built, with
    that item's exception. *)
Lemma mapCards_first_failure (vr : Variant) (good : list JsVal)
  (bad : JsVal) (rest : list JsVal) (e : JsError) :
  Forall Renderable good ->
  forall k,
    renderCard vr bad (k + List.length good) = Throw e ->
    mapCards vr (good ++ bad :: rest) k = Throw e.
Proof.
  induction 1 as [|item good Hi _ IH]; intros k Hb; cbn [mapCards app].
  - cbn [List.length] in Hb. rewrite Nat.add_0_r in Hb. now rewrite Hb.
  - destruct (renderCard_renderable vr item k Hi) as (visual & Hc).
    rewrite Hc. cbn [bind]. rewrite IH; [reflexivity|].
    cbn [List.length] in Hb. now rewrite Nat.add_succ_r in Hb.
Qed.
(* ================================================================== *)
(** ** fetchAndRender                                                  *)
(* ================================================================== *)

(** The page after an array whose elements all render has arrived with a
    success status. *)
Lemma fetch_cards
  (faultMessage : EngineFault -> string) (vr : Variant)
  (status : Z) (items : list JsVal) (pg : Page) :
  ok status = true ->
  Forall Renderable items ->
  exists cards,
    fetchAndRender faultMessage vr (Response status (BodyJson (JArr items))) pg
      = mkPage items (String.concat "" cards) (modalOverlay pg) /\
    List.length cards = List.length items /\
    forall i item, nth_error items i = Some item ->
      exists card,
        nth_error cards i = Some card /\
        renderCard vr item i = Normal card /\
        startsWith (cardOpening i) card = true.
Proof.
  intros Hok Hitems.
  destruct (mapCards_spec vr items Hitems 0%nat) as (cards & Hm & Hl & Hn).
  exists cards. split; [|split; [exact Hl|]].
  - unfold fetchAndRender, tryFetch, renderGallery.
    rewrite Hok. cbn [negb apodItems setItems]. rewrite Hm.
    now rewrite <- joinEmpty_concat.
  - intros i item Hi. destruct (Hn i item Hi) as (card & Hc & Hr).
    exists card. split; [exact Hc|]. split; [exact Hr|].
    cbn [Nat.add] in Hr.
    destruct (renderCard_shape _ _ _ _ Hr) as (t & d & v & ->).
    apply cardMarkup_opening.
Qed.

(** C5. After a successful fetch-and-render of a list of n items (success
    status, array body, every element an item whose fields can be drawn)
    the item list is that list and the grid is the concatenation, in list
    order, of exactly n cards, the card at position i being the one
    rendered for item i and opening with [data-index="i"], for i from 0 to
    n-1. *)
Theorem fetch_renders_card_per_item
  (faultMessage : EngineFault -> string) (vr : Variant)
  (status : Z) (items : list JsVal) (pg : Page) :
  ok status = true ->
  Forall Renderable items ->
  let pg' :=
    fetchAndRender faultMessage vr (Response status (BodyJson (JArr items))) pg
  in
  apodItems pg' = items /\
  exists cards,
    galleryHTML pg' = String.concat "" cards /\
    List.length cards = List.length items /\
    forall i item, nth_error items i = Some item ->
      exists card,
        nth_error cards i = Some card /\
        renderCard vr item i = Normal card /\
        startsWith (cardOpening i) card = true.
Proof.
  intros Hok Hitems pg'.
  destruct (fetch_cards faultMessage vr status items pg Hok Hitems)
    as (cards & Hpg & Hl & Hn).
  unfold pg'. rewrite Hpg. split; [reflexivity|].
  exists cards. split; [reflexivity|]. split; [exact Hl|]. exact Hn.
Qed.

Lemma sampleItems_renderable : Forall Renderable sampleItems.
Proof. repeat constructor. Defined.

Lemma fetch_renders_card_per_item_witness :
  ok 200 = true /\
  Forall Renderable sampleItems /\
  exists cards,
    galleryHTML (fetchAndRender sampleFaultMessage Wrapped
                   (Response 200 (BodyJson (JArr sampleItems))) freshPage)
      = String.concat "" cards /\
    List.length cards = 3%nat /\
    exists c0 c1 c2, cards = [c0; c1; c2] /\
      startsWith (cardOpening 0) c0 = true /\
      startsWith (cardOpening 1) c1 = true /\
      startsWith (cardOpening 2) c2 = true.
Proof.
  assert (H1 : ok 200 = true) by reflexivity.
  split; [exact H1|]. split; [exact sampleItems_renderable|].
  destruct (fetch_renders_card_per_item sampleFaultMessage Wrapped 200
              sampleItems freshPage H1 sampleItems_renderable)
    as (_ & cards & Hg & Hl & Hn).
  exists cards. split; [exact Hg|]. split; [exact Hl|].
  destruct cards as [|c0 [|c1 [|c2 [|? ?]]]]; try discriminate Hl.
  exists c0, c1, c2. split; [reflexivity|].
  destruct (Hn 0%nat _ eq_refl) as (? & [= <-] & _ & S0).
  destruct (Hn 1%nat _ eq_refl) as (? & [= <-] & _ & S1).
  destruct (Hn 2%nat _ eq_refl) as (? & [= <-] & _ & S2).
  auto.
Defined.

Lemma errorMarkup_includes (p t : string) :
  includes (errorMarkup (p ++ t)) t = true.
Proof.
  unfold errorMarkup, ln. rewrite !append_assoc.
  repeat first [apply includes_here | apply includes_app_l].
Qed.

(** Whatever the response, the list after the call is the old list or the
    array that was received with a success status. *)
Lemma fetchAndRender_items
  (faultMessage : EngineFault -> string) (vr : Variant)
  (outcome : FetchOutcome) (pg : Page) :
  apodItems (fetchAndRender faultMessage vr outcome pg) = apodItems pg \/
  exists status data,
    outcome = Response status (BodyJson (JArr data)) /\
    ok status = true /\
    apodItems (fetchAndRender faultMessage vr outcome pg) = data.
Proof.
  unfold fetchAndRender, tryFetch.
  destruct outcome as [|status body]; [now left|].
  destruct (ok status) eqn:Hok; [|now left].
  destruct body as [|data]; [now left|].
  destruct data; try (now left).
  right. exists status, elems. repeat split; try assumption.
  cbn [negb]. unfold renderGallery.
  destruct (mapCards vr _ 0); reflexivity.
Qed.

(** C3. When the response has a non-success status, the gallery shows the
    error markup whose text contains the status code and [apodItems] is
    exactly what it was before the call; and in any call the list changes
    only to an array received with a success status. *)
Theorem fetch_failure_keeps_items
  (faultMessage : EngineFault -> string) (vr : Variant)
  (status : Z) (body : Body) (pg : Page) :
  ok status = false ->
  let pg' := fetchAndRender faultMessage vr (Response status body) pg in
  apodItems pg' = apodItems pg /\
  modalOverlay pg' = modalOverlay pg /\
  galleryHTML pg' =
    errorMarkup ("Network error: " ++ numberToString (Some status)) /\
  includes (galleryHTML pg') (numberToString (Some status)) = true /\
  forall outcome,
    apodItems (fetchAndRender faultMessage vr outcome pg) <> apodItems pg ->
    exists st data,
      outcome = Response st (BodyJson (JArr data)) /\ ok st = true /\
      apodItems (fetchAndRender faultMessage vr outcome pg) = data.
Proof.
  intros Hok pg'.
  assert (Hpg : pg' = setGallery
            (errorMarkup ("Network error: " ++ numberToString (Some status)))
            (showLoading pg)).
  { unfold pg', fetchAndRender, tryFetch. now rewrite Hok. }
  rewrite Hpg. repeat split.
  - apply errorMarkup_includes.
  - intros outcome Hne.
    destruct (fetchAndRender_items faultMessage vr outcome pg) as [E|E];
      [contradiction | exact E].
Qed.

Lemma fetch_failure_keeps_items_witness :
  ok 500 = false /\
  apodItems (fetchAndRender sampleFaultMessage Wrapped
               (Response 500 BodyInvalid) (setItems sampleItems freshPage))
    = sampleItems /\
  includes
    (galleryHTML (fetchAndRender sampleFaultMessage Wrapped
                    (Response 500 BodyInvalid)
                    (setItems sampleItems freshPage)))
    "500" = true.
Proof.
  split; [reflexivity|].
  destruct (fetch_failure_keeps_items sampleFaultMessage Wrapped 500
              BodyInvalid (setItems sampleItems freshPage) eq_refl)
    as (Hi & _ & _ & Hc & _).
  split; [exact Hi | exact Hc].
Defined.

(** The other failures of the [try] block leave the list alone as well. *)
Lemma fetch_other_failures_keep_items
  (faultMessage : EngineFault -> string) (vr : Variant) (pg : Page) :
  apodItems (fetchAndRender faultMessage vr Rejected pg) = apodItems pg /\
  (forall status,
     apodItems (fetchAndRender faultMessage vr (Response status BodyInvalid) pg)
     = apodItems pg) /\
  (forall status data,
     (forall elems, data <> JArr elems) ->
     apodItems (fetchAndRender faultMessage vr
                  (Response status (BodyJson data)) pg)
     = apodItems pg).
Proof.
  unfold fetchAndRender, tryFetch. repeat split.
  - intros status. destruct (ok status); reflexivity.
  - intros status data H. destruct (ok status); [|reflexivity].
    destruct data; try reflexivity. now destruct (H elems).
Qed.

(** A [null] element is met only inside [renderGallery], after the list
    has been stored: the error shows and the list is the new one. *)
Lemma fetch_null_element
  (faultMessage : EngineFault -> string) (vr : Variant) (pg : Page) :
  let pg' := fetchAndRender faultMessage vr
               (Response 200 (BodyJson (JArr [sampleImage; JNull]))) pg in
  apodItems pg' = [sampleImage; JNull] /\
  galleryHTML pg' = errorMarkup (faultMessage PropertyOfNullish).
Proof. split; reflexivity. Qed.

(* ================================================================== *)
(** ** The embed pattern                                               *)
(* ================================================================== *)

















(* ================================================================== *)
(** ** The modal                                                       *)
(* ================================================================== *)

(** Unfolds every piece of markup, built or expected, and spells it. *)
Ltac markup :=
  unfold cardMarkup, gridImage, modalImage, videoEmbed, videoLink,
    modalMarkup, videoPlaceholder, unsupportedPlaceholder, unsupportedMedia,
    videoUnavailable, gridImgTag, modalImgTag, iframeTag, fallbackAnchor,
    plainAnchor, headingTag, explanationTag, mediaTag, ln, attr;
  cbn [tabs]; spell.

Lemma mediaHTML_image (item title : JsVal) :
  nullish item = false ->
  field item "media_type" = JStr "image" ->
  printable (firstPresent (field item "hdurl") (field item "url")) = true ->
  printable title = true ->
  mediaHTML item title =
  Normal (modalImage
            (textOf (firstPresent (field item "hdurl") (field item "url")))
            (textOf title)).
Proof.
  intros H Hm Hs Ht. unfold mediaHTML.
  read_fields H.
  rewrite Hm. cbn [strictEqStr]. rewrite String.eqb_refl.
  change (jsOr (jsOr (field item "hdurl") (field item "url")) (JStr ""))
    with (imgSrc (field item "hdurl") (field item "url")).
  rewrite imgSrc_firstPresent. now print_fields.
Qed.

Lemma mediaHTML_unsupported (item title : JsVal) :
  nullish item = false ->
  field item "media_type" <> JStr "image" ->
  field item "media_type" <> JStr "video" ->
  mediaHTML item title = Normal unsupportedMedia.
Proof.
  intros H Hi Hv. unfold mediaHTML.
  read_fields H.
  now rewrite (strictEqStr_false _ _ Hi), (strictEqStr_false _ _ Hv).
Qed.



(** A video whose [url] is a string without "embed": the plain link. *)
Lemma mediaHTML_video_link (item title : JsVal) (u : string) :
  field item "media_type" = JStr "video" ->
  field item "url" = JStr u ->
  u <> "" ->
  includes u "embed" = false ->
  mediaHTML item title = Normal (videoLink u).
Proof.
  intros Hm Hu Hne Hinc.
  assert (H : nullish item = false)
    by (destruct item; try reflexivity; discriminate Hm).
  apply String.eqb_neq in Hne.
  unfold mediaHTML. read_fields H.
  rewrite Hm, Hu. cbn [strictEqStr truthy callIncludes].
  change (String.eqb "video" "image") with false.
  rewrite String.eqb_refl, Hne, Hinc. reflexivity.
Qed.

Lemma mediaHTML_video_absent (item title : JsVal) :
  field item "media_type" = JStr "video" ->
  truthy (field item "url") = false ->
  mediaHTML item title = Normal videoUnavailable.
Proof.
  intros Hm Hu.
  assert (H : nullish item = false)
    by (destruct item; try reflexivity; discriminate Hm).
  unfold mediaHTML.
  read_fields H.
  rewrite Hm, Hu. cbn [strictEqStr].
  change (String.eqb "video" "image") with false.
  rewrite String.eqb_refl. reflexivity.
Qed.

(** The modal's content around a media block that was built. *)
Lemma modalInnerHTML_of_media (item : JsVal) (media : string) :
  nullish item = false ->
  mediaHTML item (jsOr (field item "title") (JStr "Untitled")) = Normal media ->
  printable (field item "title") = true ->
  printable (field item "explanation") = true ->
  modalInnerHTML item =
  Normal (modalMarkup
            (if truthy (field item "title")
             then textOf (field item "title") else "Untitled")
            (formatDate (jsOr (field item "date") (JStr "")))
            media
            (if truthy (field item "explanation")
             then textOf (field item "explanation") else "")).
Proof.
  intros H Hm Ht He. unfold modalInnerHTML.
  read_fields H.
  rewrite Hm. cbn [bind].
  rewrite (toString_printable _ (printable_jsOr _ "Untitled" Ht)).
  rewrite (toString_printable _ (printable_jsOr _ "" He)). cbn [bind].
  now rewrite !textOf_jsOr.
Qed.

Lemma openModal_of_content (item : JsVal) (html : string) (pg : Page) :
  modalInnerHTML item = Normal html ->
  openModal item pg =
  (Normal tt, setModal (mkModal DisplayFlex html) (ensureModal pg)).
Proof. intros H. unfold openModal. now rewrite H. Qed.

(** The heading, the media block and the explanation are all in the
    modal's markup. *)
Lemma modalMarkup_parts (title date media text : string) :
  includes (modalMarkup title date media text) (headingTag title) = true /\
  includes (modalMarkup title date media text) (mediaTag media) = true /\
  includes (modalMarkup title date media text) (explanationTag text) = true.
Proof. repeat split; markup; find_fragment. Qed.

Lemma gridImage_tag (vr : Variant) (index k : nat)
  (title date src alt : string) :
  includes (cardMarkup index title date (gridImage vr k src alt))
           (gridImgTag src alt) = true.
Proof. destruct vr; markup; find_fragment. Qed.

Lemma unsupported_in_card (index : nat) (title date : string) :
  includes (cardMarkup index title date unsupportedPlaceholder)
           "<p>Unsupported media</p>" = true.
Proof. markup. find_fragment. Qed.

Lemma placeholder_in_card (index : nat) (title date : string) :
  includes (cardMarkup index title date videoPlaceholder)
           "<p>🎬 Video</p>" = true /\
  includes (cardMarkup index title date videoPlaceholder)
           "<p><small>Click to open</small></p>" = true.
Proof. split; markup; find_fragment. Qed.

Lemma videoLink_anchor (title date url text : string) :
  includes (modalMarkup title date (videoLink url) text) (plainAnchor url)
  = true.
Proof. markup. find_fragment. Qed.

Lemma modalImage_tag (src alt : string) :
  modalImage src alt = modalImgTag src alt.
Proof. markup. reflexivity. Qed.

(** The modal is built once: a second [ensureModal] changes nothing, and
    opening always leaves it built. *)
Lemma ensureModal_idempotent (pg : Page) :
  ensureModal (ensureModal pg) = ensureModal pg /\
  modalOverlay (ensureModal pg) <> None.
Proof.
  unfold ensureModal. destruct pg as [items html [m|]]; simpl;
    split; try reflexivity; discriminate.
Qed.

(** X17. Closing hides the overlay and keeps its content; closing twice,
    or closing a modal that was never built, is harmless. *)
Lemma closeModal_idempotent (pg : Page) :
  closeModal (closeModal pg) = closeModal pg /\
  (modalOverlay pg = None -> closeModal pg = pg) /\
  (forall m, modalOverlay pg = Some m ->
             modalOverlay (closeModal pg)
             = Some (mkModal DisplayNone (modalInner m))).
Proof.
  unfold closeModal. destruct pg as [items html [m|]]; simpl;
    repeat split; try reflexivity; try discriminate.
  now intros m' [= <-].
Qed.

(** C4. For an image item whose fields can be drawn, the image of the grid
    card has for source the standard-resolution URL when present, else the
    high-resolution one, else the empty string; the large image of the
    modal has the high-resolution URL when present, else the standard one,
    else the empty string.  With both present the grid uses [url] and the
    modal uses [hdurl]. *)
Theorem image_sources (vr : Variant) (item : JsVal) (index : nat) :
  field item "media_type" = JStr "image" ->
  let url := field item "url" in
  let hdurl := field item "hdurl" in
  let title := field item "title" in
  let shown := jsOr title (JStr "Untitled") in
  printable url = true -> printable hdurl = true ->
  printable title = true ->
  (exists card,
     renderCard vr item index = Normal card /\
     includes card
       (gridImgTag (textOf (firstPresent url hdurl)) (textOf title)) = true) /\
  mediaHTML item shown =
    Normal (modalImgTag (textOf (firstPresent hdurl url)) (textOf shown)) /\
  (truthy url = true -> truthy hdurl = true ->
   firstPresent url hdurl = url /\ firstPresent hdurl url = hdurl) /\
  (truthy url = false -> truthy hdurl = true ->
   firstPresent url hdurl = hdurl) /\
  (truthy hdurl = false -> truthy url = true ->
   firstPresent hdurl url = url) /\
  (truthy url = false -> truthy hdurl = false ->
   firstPresent url hdurl = JStr "" /\ firstPresent hdurl url = JStr "").
Proof.
  intros Hm url hdurl title shown Hu Hh Ht.
  assert (H : nullish item = false)
    by (destruct item; try reflexivity; discriminate Hm).
  split; [|split].
  - eexists. split.
    + apply renderCard_of_visual; [exact H | | exact Ht].
      apply visualHTML_image; try assumption.
      now apply firstPresent_printable.
    + exact (gridImage_tag _ _ _ _ _ _ _).
  - rewrite <- modalImage_tag. apply mediaHTML_image; try assumption.
    + now apply firstPresent_printable.
    + now apply printable_jsOr.
  - unfold firstPresent.
    repeat split; intros;
      repeat match goal with E : truthy _ = _ |- _ => rewrite E end;
      reflexivity.
Qed.

Lemma image_sources_witness :
  field sampleImage "media_type" = JStr "image" /\
  (exists card,
     renderCard Wrapped sampleImage 0 = Normal card /\
     includes card (gridImgTag "https://apod.example/orion.jpg" "Orion")
       = true) /\
  mediaHTML sampleImage (jsOr (field sampleImage "title") (JStr "Untitled"))
    = Normal (modalImgTag "https://apod.example/orion_hd.jpg" "Orion").
Proof.
  split; [reflexivity|].
  destruct (image_sources Wrapped sampleImage 0 eq_refl eq_refl eq_refl
              eq_refl) as (Hc & Hm & _).
  split; [exact Hc | exact Hm].
Defined.

(** C7. For an item whose media type is neither ["image"] nor ["video"]
    and whose title and explanation can be drawn, the grid card carries the
    placeholder paragraph reading "Unsupported media" and the media block
    of the modal carries the notice "Unsupported media type.", which holds
    the same words. *)
Theorem unsupported_media (vr : Variant) (item : JsVal) (index : nat) :
  nullish item = false ->
  field item "media_type" <> JStr "image" ->
  field item "media_type" <> JStr "video" ->
  printable (field item "title") = true ->
  printable (field item "explanation") = true ->
  (exists card,
     renderCard vr item index = Normal card /\
     includes card "<p>Unsupported media</p>" = true) /\
  (exists html,
     modalInnerHTML item = Normal html /\
     includes html (mediaTag "<p>Unsupported media type.</p>") = true) /\
  includes "<p>Unsupported media type.</p>" "Unsupported media" = true.
Proof.
  intros H Hi Hv Ht He. split; [|split; [|reflexivity]].
  - eexists. split.
    + apply renderCard_of_visual; [exact H | | exact Ht].
      now apply visualHTML_unsupported.
    + exact (unsupported_in_card _ _ _).
  - eexists. split.
    + apply modalInnerHTML_of_media; try assumption.
      now apply mediaHTML_unsupported.
    + exact (proj1 (proj2 (modalMarkup_parts _ _ unsupportedMedia _))).
Qed.

Lemma unsupported_media_witness :
  field sampleAsteroid "media_type" = JStr "asteroid" /\
  (exists card, renderCard Bare sampleAsteroid 2 = Normal card /\
                includes card "<p>Unsupported media</p>" = true) /\
  (exists html, modalInnerHTML sampleAsteroid = Normal html /\
                includes html (mediaTag "<p>Unsupported media type.</p>")
                  = true).
Proof.
  split; [reflexivity|].
  destruct (unsupported_media Bare sampleAsteroid 2 eq_refl)
    as (Hc & Hm & _); try discriminate; try reflexivity.
  split; [exact Hc | exact Hm].
Defined.

(** C10. For an item that opens in the modal (its media block is built and
    its title and explanation can be drawn), the heading is the title when
    truthy and "Untitled" for every falsy title (absent, [null], the empty
    string, [0], [false]), and the explanation paragraph holds the explanation when
    truthy and nothing for every falsy one; a falsy title or explanation
    never makes the call fail. *)
Theorem modal_fallback_texts (item : JsVal) (media : string) (pg : Page) :
  nullish item = false ->
  let title := field item "title" in
  let explanation := field item "explanation" in
  mediaHTML item (jsOr title (JStr "Untitled")) = Normal media ->
  (truthy title = true -> printable title = true) ->
  (truthy explanation = true -> printable explanation = true) ->
  let heading := if truthy title then textOf title else "Untitled" in
  let text := if truthy explanation then textOf explanation else "" in
  exists html,
    openModal item pg =
      (Normal tt, setModal (mkModal DisplayFlex html) (ensureModal pg)) /\
    includes html (headingTag heading) = true /\
    includes html (mediaTag media) = true /\
    includes html (explanationTag text) = true.
Proof.
  intros H title explanation Hm Ht He heading text.
  assert (Pt : printable title = true).
  { destruct (truthy title) eqn:E; [now apply Ht | now apply falsy_printable]. }
  assert (Pe : printable explanation = true).
  { destruct (truthy explanation) eqn:E;
      [now apply He | now apply falsy_printable]. }
  eexists. split.
  - apply openModal_of_content.
    apply modalInnerHTML_of_media; [exact H | exact Hm | exact Pt | exact Pe].
  - exact (modalMarkup_parts _ _ _ _).
Qed.

Lemma modal_fallback_texts_witness :
  nullish sampleVideo = false /\
  field sampleVideo "title" = JStr "" /\
  field sampleVideo "explanation" = JUndefined /\
  exists media html,
    mediaHTML sampleVideo (JStr "Untitled") = Normal media /\
    openModal sampleVideo freshPage =
      (Normal tt, mkPage [] "" (Some (mkModal DisplayFlex html))) /\
    includes html (headingTag "Untitled") = true /\
    includes html (explanationTag "") = true.
Proof.
  repeat (split; [reflexivity|]).
  destruct (mediaHTML sampleVideo (JStr "Untitled")) as [media|e] eqn:Em;
    [|discriminate Em].
  destruct (modal_fallback_texts sampleVideo media freshPage eq_refl Em)
    as (html & Ho & Hh & _ & He); try discriminate.
  exists media, html. repeat split; assumption.
Defined.
(* ================================================================== *)
(** ** The fallback link of an embedded video                          *)
(* ================================================================== *)




(** Where an [embed/{id}] precedes a final [embed/], the earlier
    identifier is the one recognised. *)
Example video_two_embeds :
  matchEmbedId "https://v.example/embed/abc/embed/" = JStr "abc".
Proof. reflexivity. Qed.
(* ================================================================== *)
(** ** Selecting a card                                                *)
(* ================================================================== *)

Lemma arrayGet_resolved (items : list JsVal) (index : Number) (item : JsVal) :
  ResolvesTo items index item ->
  arrayGet items index = item /\ truthy item = true.
Proof.
  intros (z & -> & Hz & Hn & Ht). split; [|exact Ht].
  unfold arrayGet. destruct (z <? 0) eqn:E; [lia|].
  now apply nth_error_nth.
Qed.

Lemma arrayGet_unresolved (items : list JsVal) (index : Number) :
  (forall item, ~ ResolvesTo items index item) ->
  truthy (arrayGet items index) = false.
Proof.
  intros H. destruct index as [z|]; [|reflexivity].
  unfold arrayGet. destruct (z <? 0) eqn:E; [reflexivity|].
  destruct (nth_error items (Z.to_nat z)) as [item|] eqn:Hn.
  - rewrite (nth_error_nth _ _ JUndefined Hn).
    destruct (truthy item) eqn:Ht; [|reflexivity].
    exfalso. apply (H item). exists z. repeat split; try assumption. lia.
  - apply nth_error_None in Hn. now rewrite nth_overflow.
Qed.

(** An index that is [NaN], negative, or past the end resolves to nothing. *)
Lemma out_of_range_unresolved (items : list JsVal) (index : Number) :
  index = NaN \/
  (exists z, index = Some z /\ (z < 0 \/ Z.of_nat (List.length items) <= z)) ->
  forall item, ~ ResolvesTo items index item.
Proof.
  intros H item (z & Hz & Hpos & Hn & _).
  destruct H as [->|(z' & -> & Hr)]; [discriminate Hz|].
  injection Hz as ->.
  assert (nth_error items (Z.to_nat z) <> None) by congruence.
  apply nth_error_Some in H. lia.
Qed.

(** Both listeners come down to one test on the element found. *)
Lemma dispatch_selected (ev : Selection) (card : Card) (pg : Page) :
  Selects ev card ->
  dispatch ev pg =
  if truthy (arrayGet (apodItems pg) (cardIndex card))
  then openModal (arrayGet (apodItems pg) (cardIndex card)) pg
  else (Normal tt, pg).
Proof. intros [->| ->]; reflexivity. Qed.

(** C8. For a click or an Enter key press on a card: when the card's
    [data-index] resolves to an item of the current list, the handler does
    exactly [openModal] on that item; when it does not (not a number,
    negative, past the end of the list, or an empty slot), the handler
    returns normally and leaves the page untouched, so no modal opens. *)
Theorem selection_dispatch (ev : Selection) (card : Card) (pg : Page) :
  Selects ev card ->
  (forall item,
     ResolvesTo (apodItems pg) (cardIndex card) item ->
     dispatch ev pg = openModal item pg) /\
  ((forall item, ~ ResolvesTo (apodItems pg) (cardIndex card) item) ->
   dispatch ev pg = (Normal tt, pg)) /\
  (cardIndex card = NaN \/
   (exists z, cardIndex card = Some z /\
              (z < 0 \/ Z.of_nat (List.length (apodItems pg)) <= z)) ->
   dispatch ev pg = (Normal tt, pg)).
Proof.
  intros Hsel. rewrite (dispatch_selected ev card pg Hsel).
  split; [|split].
  - intros item Hr. apply arrayGet_resolved in Hr.
    destruct Hr as [-> ->]. reflexivity.
  - intros Hn. now rewrite (arrayGet_unresolved _ _ Hn).
  - intros Hout.
    now rewrite (arrayGet_unresolved _ _ (out_of_range_unresolved _ _ Hout)).
Qed.

Lemma selection_dispatch_witness :
  Selects (Click (Some (mkCard (Some "1")))) (mkCard (Some "1")) /\
  ResolvesTo sampleItems (cardIndex (mkCard (Some "1"))) sampleVideo /\
  dispatch (Click (Some (mkCard (Some "1")))) (setItems sampleItems freshPage)
    = openModal sampleVideo (setItems sampleItems freshPage) /\
  Selects (KeyDown "Enter" (Some (mkCard (Some "7")))) (mkCard (Some "7")) /\
  dispatch (KeyDown "Enter" (Some (mkCard (Some "7"))))
           (setItems sampleItems freshPage)
    = (Normal tt, setItems sampleItems freshPage).
Proof.
  assert (S1 : Selects (Click (Some (mkCard (Some "1")))) (mkCard (Some "1")))
    by (left; reflexivity).
  assert (S7 : Selects (KeyDown "Enter" (Some (mkCard (Some "7"))))
                       (mkCard (Some "7")))
    by (right; reflexivity).
  assert (R : ResolvesTo sampleItems (cardIndex (mkCard (Some "1"))) sampleVideo).
  { exists 1. repeat split; try reflexivity. lia. }
  split; [exact S1|]. split; [exact R|]. split; [|split; [exact S7|]].
  - exact (proj1 (selection_dispatch _ _ (setItems sampleItems freshPage) S1)
             sampleVideo R).
  - apply (proj2 (proj2 (selection_dispatch _ _
                           (setItems sampleItems freshPage) S7))).
    right. exists 7. split; [reflexivity|]. right. simpl. lia.
Defined.

(** Events that select no card do nothing. *)
Lemma dispatch_elsewhere (pg : Page) (key : string) (closest : option Card) :
  dispatch (Click None) pg = (Normal tt, pg) /\
  dispatch (KeyDown key None) pg = (Normal tt, pg) /\
  (key <> "Enter" -> dispatch (KeyDown key closest) pg = (Normal tt, pg)).
Proof.
  repeat split.
  - simpl. unfold onGalleryKeydown. now destruct (negb (String.eqb key "Enter")).
  - intros H. simpl. unfold onGalleryKeydown.
    apply String.eqb_neq in H. now rewrite H.
Qed.

(* ================================================================== *)
(** ** The index written on a card reads back                          *)
(* ================================================================== *)

Lemma string_of_uint_allDigits (d : Decimal.uint) :
  allDigits (NilEmpty.string_of_uint d) = true.
Proof. induction d; simpl; auto. Qed.

Lemma digitsValue_of_uint_acc (d : Decimal.uint) (acc : positive) :
  digitsValue (Z.pos acc) (NilEmpty.string_of_uint d)
  = Z.pos (Pos.of_uint_acc d acc).
Proof.
  revert acc. induction d; intros acc; cbn [NilEmpty.string_of_uint
    digitsValue Pos.of_uint_acc]; try reflexivity;
  match goal with
  | |- digitsValue (_ + digitValue ?c) _ = Z.pos (Pos.of_uint_acc _ ?p) =>
      let v := eval vm_compute in (digitValue c) in
      change (digitValue c) with v;
      rewrite <- (IHd p); f_equal; lia
  end.
Qed.

Lemma digitsValue_of_uint (d : Decimal.uint) :
  numeral (NilEmpty.string_of_uint d) = Z.of_N (Pos.of_uint d).
Proof.
  unfold numeral.
  induction d; cbn [NilEmpty.string_of_uint digitsValue Pos.of_uint];
    try reflexivity; try exact IHd;
  match goal with
  | |- digitsValue _ _ = Z.of_N (N.pos (Pos.of_uint_acc _ ?p)) =>
      exact (digitsValue_of_uint_acc d p)
  end.
Qed.

(** [parseInt] inverts [String] on the non-negative integers. *)
Lemma parseInt_numberToString (z : Z) :
  0 <= z -> parseInt (numberToString (Some z)) = Some z.
Proof.
  intros Hz. unfold numberToString.
  destruct z as [|p|p]; [reflexivity| |lia].
  cbn [Z.to_int NilZero.string_of_int].
  assert (Hn : NilZero.string_of_uint (Pos.to_uint p)
               = NilEmpty.string_of_uint (Pos.to_uint p)).
  { destruct (Pos.to_uint p) eqn:E; try reflexivity.
    exfalso. exact (DecimalPos.Unsigned.to_uint_nonnil p E). }
  rewrite Hn, parseInt_digits.
  - rewrite digitsValue_of_uint.
    pose proof (DecimalPos.Unsigned.of_to p) as Hp.
    unfold Pos.of_uint in Hp |- *. now rewrite Hp.
  - apply string_of_uint_allDigits.
  - rewrite <- Hn. destruct (Pos.to_uint p) eqn:E; try discriminate.
Qed.

(** X18. The index written on a card reads back: selecting a card whose
    [data-index] is the decimal text of [i], as [renderGallery] writes it,
    opens the item at position [i] of the current list. *)
Lemma select_rendered_card (ev : Selection) (pg : Page) (i : nat)
  (item : JsVal) :
  let card := mkCard (Some (numberToString (Some (Z.of_nat i)))) in
  Selects ev card ->
  nth_error (apodItems pg) i = Some item ->
  truthy item = true ->
  dispatch ev pg = openModal item pg.
Proof.
  intros card Hsel Hn Ht.
  rewrite (dispatch_selected ev card pg Hsel).
  assert (Hr : ResolvesTo (apodItems pg) (cardIndex card) item).
  { exists (Z.of_nat i). unfold cardIndex, card. cbn [dataIndex].
    rewrite parseInt_numberToString by lia.
    rewrite Nat2Z.id. repeat split; try assumption. lia. }
  apply arrayGet_resolved in Hr. destruct Hr as [-> ->]. reflexivity.
Qed.

(* ================================================================== *)
(** ** More on formatDate                                              *)
(* ================================================================== *)

(** A string that does not begin with a digit is outside the pattern. *)
Lemma isoDateMatch_first (c : ascii) (r : string) :
  isDigit c = false -> isoDateMatch (String c r) = None.
Proof. intros H. unfold isoDateMatch. simpl. now rewrite H. Qed.

(** Every entry of the table begins with a letter. *)
Lemma month_not_iso (i : nat) (r : string) :
  (i < 12)%nat -> isoDateMatch (nth i monthNames "undefined" ++ r) = None.
Proof.
  intros H.
  destruct i as [|[|[|[|[|[|[|[|[|[|[|[|i]]]]]]]]]]]]; try lia;
    apply isoDateMatch_first; reflexivity.
Qed.

Lemma month_index_bound (m : string) :
  (Z.to_nat (clamp 0 11 (numeral m - 1)) < 12)%nat.
Proof. pose proof (clamp_range 0 11 (numeral m - 1)). lia. Qed.

(** What [formatDate] returns is never itself a date of the pattern. *)
Lemma formatDate_output_not_iso (v : JsVal) :
  isoDateMatch (formatDate v) = None.
Proof.
  destruct v; try reflexivity.
  destruct (isoDateMatch s) as [[[y m] d]|] eqn:E.
  - rewrite (formatDate_matched _ _ _ _ (isoDateMatch_sound _ _ _ _ E)).
    apply month_not_iso, month_index_bound.
  - unfold formatDate. now rewrite E.
Qed.

(** X1. Formatting is idempotent: a formatted date, or anything else
    [formatDate] returns, passes through a second call unchanged. *)
Theorem formatDate_idempotent (v : JsVal) :
  formatDate (JStr (formatDate v)) = formatDate v.
Proof.
  unfold formatDate at 1. now rewrite formatDate_output_not_iso.
Qed.

(** X2. A string is returned unchanged exactly when it is outside the
    pattern: every string of the pattern is rewritten. *)
Theorem formatDate_fixes_only_unmatched (s : string) :
  formatDate (JStr s) = s <-> ~ MatchesIso (JStr s).
Proof.
  split.
  - intros H (s' & y & m & d & [= <-] & Hi).
    pose proof (formatDate_output_not_iso (JStr s)) as Hn.
    rewrite H, (isoDateMatch_complete _ _ _ _ Hi) in Hn. discriminate Hn.
  - intros H. destruct (isoDateMatch s) as [[[y m] d]|] eqn:E.
    + exfalso. apply H. exists s, y, m, d. split; [reflexivity|].
      now apply isoDateMatch_sound.
    + unfold formatDate. now rewrite E.
Qed.

(** X3. The month is not validated: two dates that differ only in month
    fields with the same clamped index are displayed alike, so every month
    from 12 to 99 shows as December and month 00 as January. *)
Theorem formatDate_month_collapse (s s' y m m' d : string) :
  IsoDate s y m d -> IsoDate s' y m' d ->
  clamp 0 11 (numeral m - 1) = clamp 0 11 (numeral m' - 1) ->
  formatDate (JStr s) = formatDate (JStr s').
Proof.
  intros H H' E.
  now rewrite (formatDate_matched _ _ _ _ H), (formatDate_matched _ _ _ _ H'), E.
Qed.

Lemma formatDate_month_collapse_witness :
  IsoDate "2025-12-05" "2025" "12" "05" /\
  IsoDate "2025-47-05" "2025" "47" "05" /\
  "2025-12-05" <> "2025-47-05" /\
  formatDate (JStr "2025-12-05") = formatDate (JStr "2025-47-05").
Proof.
  assert (H1 : IsoDate "2025-12-05" "2025" "12" "05")
    by (repeat split; reflexivity).
  assert (H2 : IsoDate "2025-47-05" "2025" "47" "05")
    by (repeat split; reflexivity).
  split; [exact H1|]. split; [exact H2|]. split; [discriminate|].
  exact (formatDate_month_collapse _ _ _ _ _ _ H1 H2 eq_refl).
Defined.

Lemma isDigit_range (c : ascii) :
  isDigit c = true -> 0 <= digitValue c <= 9.
Proof.
  unfold isDigit, digitValue. intros H.
  apply andb_true_iff in H. destruct H as [H1 H2].
  apply Nat.leb_le in H1, H2. lia.
Qed.

Lemma digitValue_inj (a b : ascii) :
  digitValue a = digitValue b -> a = b.
Proof.
  unfold digitValue. intros H.
  rewrite <- (ascii_nat_embedding a), <- (ascii_nat_embedding b).
  f_equal. lia.
Qed.

(** Two-digit fields that denote the same number are the same field. *)
Lemma numeral_two_digits_inj (f g : string) :
  String.length f = 2%nat -> allDigits f = true ->
  String.length g = 2%nat -> allDigits g = true ->
  numeral f = numeral g -> f = g.
Proof.
  intros Lf Df Lg Dg.
  destruct (two_digits f Lf Df) as (a & b & -> & Ha & Hb).
  destruct (two_digits g Lg Dg) as (a' & b' & -> & Ha' & Hb').
  unfold numeral. cbn [digitsValue].
  apply isDigit_range in Ha, Hb, Ha', Hb'. intros H.
  assert (digitValue a = digitValue a') by lia.
  assert (digitValue b = digitValue b') by lia.
  f_equal; [|f_equal]; now apply digitValue_inj.
Qed.

Lemma dayText_inj (d d' : string) :
  String.length d = 2%nat -> allDigits d = true ->
  String.length d' = 2%nat -> allDigits d' = true ->
  dayText d = dayText d' -> d = d'.
Proof.
  intros L D L' D'.
  destruct (two_digits d L D) as (a & b & -> & Ha & _).
  destruct (two_digits d' L' D') as (a' & b' & -> & Ha' & _).
  apply isDigit_cases in Ha, Ha'. simpl in Ha, Ha'.
  intuition (subst; simpl in *; congruence).
Qed.

Lemma dayText_allDigits (d : string) :
  String.length d = 2%nat -> allDigits d = true ->
  allDigits (dayText d) = true.
Proof.
  intros L D. destruct (two_digits d L D) as (a & b & -> & Ha & Hb).
  apply isDigit_cases in Ha. simpl in Ha.
  intuition (subst; simpl; rewrite ?Hb; reflexivity).
Qed.

(** A run of digits ends where the comma stands. *)
Lemma digits_comma_inj (a b r r' : string) :
  allDigits a = true -> allDigits b = true ->
  a ++ String "," r = b ++ String "," r' -> a = b /\ r = r'.
Proof.
  revert b. induction a as [|c a IH]; intros [|c' b] Da Db H; simpl in *.
  - injection H as ->. auto.
  - injection H as <- _. discriminate Db.
  - injection H as -> _. discriminate Da.
  - injection H as <- H.
    apply andb_true_iff in Da, Db.
    destruct (IH b (proj2 Da) (proj2 Db) H) as [-> ->]. auto.
Qed.

(** The table has no two entries alike, and each is three letters long. *)
Lemma month_prefix_inj (i j : nat) (r r' : string) :
  (i < 12)%nat -> (j < 12)%nat ->
  nth i monthNames "undefined" ++ r = nth j monthNames "undefined" ++ r' ->
  i = j /\ r = r'.
Proof.
  intros Hi Hj.
  destruct i as [|[|[|[|[|[|[|[|[|[|[|[|i]]]]]]]]]]]]; try lia;
  destruct j as [|[|[|[|[|[|[|[|[|[|[|[|j]]]]]]]]]]]]; try lia;
  simpl; intros H; try discriminate H;
  injection H as ->; auto.
Qed.

(** X4. On dates whose month field is 01 to 12 the display determines the
    date: two such dates formatted alike are the same string. *)
Theorem formatDate_injective (s s' y y' m m' d d' : string) :
  IsoDate s y m d -> IsoDate s' y' m' d' ->
  1 <= numeral m <= 12 -> 1 <= numeral m' <= 12 ->
  formatDate (JStr s) = formatDate (JStr s') ->
  s = s'.
Proof.
  intros H H' Hm Hm' E.
  rewrite (formatDate_matched _ _ _ _ H), (formatDate_matched _ _ _ _ H') in E.
  destruct H as (-> & _ & Lm & Ld & _ & Dm & Dd).
  destruct H' as (-> & _ & Lm' & Ld' & _ & Dm' & Dd').
  apply month_prefix_inj in E; try apply month_index_bound.
  destruct E as [Ei E]. injection E as E.
  apply digits_comma_inj in E; try now apply dayText_allDigits.
  destruct E as [Ed Ey]. injection Ey as ->.
  apply dayText_inj in Ed; try assumption. subst d'.
  assert (numeral m = numeral m') by (unfold clamp in Ei; lia).
  now rewrite (numeral_two_digits_inj m m' Lm Dm Lm' Dm').
Qed.

Lemma formatDate_injective_witness :
  IsoDate "2025-10-27" "2025" "10" "27" /\
  1 <= numeral "10" <= 12 /\
  "2025-10-27" = "2025-10-27".
Proof.
  assert (H : IsoDate "2025-10-27" "2025" "10" "27")
    by (repeat split; reflexivity).
  assert (Hm : 1 <= numeral "10" <= 12) by (vm_compute; intuition discriminate).
  split; [exact H|]. split; [exact Hm|].
  exact (formatDate_injective _ _ _ _ _ _ _ _ H H Hm Hm eq_refl).
Defined.

Lemma formatDate_fixes_only_unmatched_witness :
  ~ MatchesIso (JStr "27 Oct 2025") /\
  formatDate (JStr "27 Oct 2025") = "27 Oct 2025".
Proof.
  assert (H : ~ MatchesIso (JStr "27 Oct 2025")).
  { intros (s & y & m & d & [= <-] & Hi).
    apply isoDateMatch_complete in Hi. discriminate Hi. }
  split; [exact H|].
  exact (proj2 (formatDate_fixes_only_unmatched "27 Oct 2025") H).
Defined.

(* ================================================================== *)
(** ** More on the gallery                                             *)
(* ================================================================== *)

(** X5. The card of a video item whose title can be drawn holds its
    thumbnail as an image labelled "(video)" when [thumbnail_url] is
    present, and the "Video / Click to open" placeholder otherwise; the
    item's [url] plays no part in the grid. *)
Theorem video_card (vr : Variant) (item : JsVal) (index : nat) :
  field item "media_type" = JStr "video" ->
  let title := field item "title" in
  let thumb := field item "thumbnail_url" in
  printable title = true ->
  (truthy thumb = true -> printable thumb = true) ->
  exists card,
    renderCard vr item index = Normal card /\
    (truthy thumb = true ->
     includes card
       (gridImgTag (textOf thumb) (textOf title ++ " (video)")) = true) /\
    (truthy thumb = false ->
     includes card "<p>🎬 Video</p>" = true /\
     includes card "<p><small>Click to open</small></p>" = true).
Proof.
  intros Hm title thumb Ht Hth.
  assert (H : nullish item = false)
    by (destruct item; try reflexivity; discriminate Hm).
  assert (Pth : printable thumb = true).
  { destruct (truthy thumb) eqn:E;
      [now apply Hth | now apply falsy_printable]. }
  pose proof (visualHTML_video vr item title H Hm Pth Ht) as Hv.
  pose proof (renderCard_of_visual vr item index _ H Hv Ht) as Hc.
  eexists. split; [exact Hc|].
  fold thumb title. destruct (truthy thumb); split; try discriminate;
    intros _.
  - exact (gridImage_tag _ _ _ _ _ _ _).
  - exact (placeholder_in_card _ _ _).
Qed.

Lemma video_card_witness :
  field sampleVideoThumb "media_type" = JStr "video" /\
  (exists card,
     renderCard Bare sampleVideoThumb 0 = Normal card /\
     includes card
       (gridImgTag "https://apod.example/launch.jpg" "Launch (video)")
       = true) /\
  (exists card,
     renderCard Bare sampleVideo 1 = Normal card /\
     includes card "<p><small>Click to open</small></p>" = true).
Proof.
  split; [reflexivity|]. split.
  - destruct (video_card Bare sampleVideoThumb 0 eq_refl eq_refl
                (fun _ => eq_refl)) as (card & Hc & Hi & _).
    exists card. split; [exact Hc | exact (Hi eq_refl)].
  - destruct (video_card Bare sampleVideo 1 eq_refl eq_refl
                (fun _ => eq_refl)) as (card & Hc & _ & Hp).
    exists card. split; [exact Hc | exact (proj2 (Hp eq_refl))].
Defined.

(** A card is never empty: it opens with a line break and three tabs. *)
Lemma cardMarkup_head (index : nat) (title date visual : string) :
  exists r, cardMarkup index title date visual = nl ++ tabs 3 ++ r.
Proof.
  unfold cardMarkup, ln. rewrite !append_assoc. eauto.
Qed.

Lemma mapCards_head (vr : Variant) (item : JsVal) (items : list JsVal)
  (k : nat) (cards : list string) :
  mapCards vr (item :: items) k = Normal cards ->
  exists r, joinEmpty cards = nl ++ tabs 3 ++ r.
Proof.
  cbn [mapCards]. destruct (renderCard vr item k) as [card|e] eqn:E;
    [|discriminate].
  cbn [bind]. destruct (mapCards vr items (S k)) as [rest|e];
    [|discriminate].
  cbn [bind]. intros [= <-].
  destruct (renderCard_shape _ _ _ _ E) as (t & d & v & ->).
  destruct (cardMarkup_head k t d v) as (r & ->).
  exists (r ++ joinEmpty rest). unfold joinEmpty. cbn [fold_right].
  now rewrite !append_assoc.
Qed.

Lemma fetch_success_page
  (faultMessage : EngineFault -> string) (vr : Variant)
  (status : Z) (items : list JsVal) (pg : Page) :
  ok status = true ->
  fetchSettle faultMessage vr (Response status (BodyJson (JArr items))) pg =
  match mapCards vr items 0 with
  | Normal cards => setGallery (joinEmpty cards) (setItems items pg)
  | Throw e =>
      setGallery (errorMarkup (errMessage faultMessage e)) (setItems items pg)
  end.
Proof.
  intros Hok. unfold fetchSettle, tryFetch, renderGallery.
  rewrite Hok. cbn [negb apodItems setItems].
  destruct (mapCards vr items 0); reflexivity.
Qed.

(** The two turns of [fetchAndRender], put together. *)
Lemma fetchAndRender_turns
  (faultMessage : EngineFault -> string) (vr : Variant)
  (outcome : FetchOutcome) (pg : Page) :
  fetchAndRender faultMessage vr outcome pg =
  fetchSettle faultMessage vr outcome (showLoading pg).
Proof. reflexivity. Qed.

(** X6. A [null] in an array that arrived with a success status, every
    element before it being drawable, makes [renderGallery] throw without
    drawing anything; by then the list has been stored, so the page ends
    with the new list and the error notice instead of cards. *)
Theorem fetch_array_with_null
  (faultMessage : EngineFault -> string) (vr : Variant)
  (status : Z) (good : list JsVal) (bad : JsVal) (rest : list JsVal)
  (pg : Page) :
  ok status = true ->
  Forall Renderable good ->
  nullish bad = true ->
  let items := (good ++ bad :: rest)%list in
  renderGallery vr items pg = (Throw (EngineError PropertyOfNullish), pg) /\
  fetchAndRender faultMessage vr (Response status (BodyJson (JArr items))) pg =
    setGallery (errorMarkup (faultMessage PropertyOfNullish))
               (setItems items pg).
Proof.
  intros Hok Hgood Hbad items.
  assert (Hm : mapCards vr items 0 = Throw (EngineError PropertyOfNullish)).
  { apply mapCards_first_failure; [exact Hgood|].
    now apply renderCard_nullish. }
  split.
  - unfold renderGallery. now rewrite Hm.
  - rewrite fetchAndRender_turns, (fetch_success_page _ _ _ _ _ Hok), Hm.
    reflexivity.
Qed.

Lemma fetch_array_with_null_witness :
  ok 200 = true /\
  Forall Renderable [sampleImage] /\
  nullish JNull = true /\
  apodItems (fetchAndRender sampleFaultMessage Wrapped
               (Response 200 (BodyJson (JArr [sampleImage; JNull]))) freshPage)
    = [sampleImage; JNull] /\
  galleryHTML (fetchAndRender sampleFaultMessage Wrapped
                 (Response 200 (BodyJson (JArr [sampleImage; JNull])))
                 freshPage)
    = errorMarkup "Cannot read properties of null".
Proof.
  assert (H : Forall Renderable [sampleImage]) by (repeat constructor).
  split; [reflexivity|]. split; [exact H|]. split; [reflexivity|].
  destruct (fetch_array_with_null sampleFaultMessage Wrapped 200
              [sampleImage] JNull [] freshPage eq_refl H eq_refl) as [_ E].
  cbn [app] in E. rewrite E. split; reflexivity.
Defined.

Lemma errorMarkup_head (message : string) :
  exists r, errorMarkup message = nl ++ tabs 3 ++ r.
Proof. unfold errorMarkup, ln. rewrite !append_assoc. eauto. Qed.

(** X7. After a successful render the grid is empty exactly when the array
    was: an empty feed leaves no cards and no notice. *)
Theorem fetch_empty_grid
  (faultMessage : EngineFault -> string) (vr : Variant)
  (status : Z) (items : list JsVal) (pg : Page) :
  ok status = true ->
  Forall (fun it => nullish it = false) items ->
  (galleryHTML (fetchAndRender faultMessage vr
                  (Response status (BodyJson (JArr items))) pg) = ""
   <-> items = []).
Proof.
  intros Hok Hitems.
  rewrite fetchAndRender_turns, (fetch_success_page _ _ _ _ _ Hok).
  destruct (mapCards vr items 0) as [cards|e] eqn:Hm;
    cbn [galleryHTML setGallery]; split.
  - intros E. destruct items as [|item items]; [reflexivity|].
    destruct (mapCards_head _ _ _ _ _ Hm) as (r & Hr).
    rewrite Hr in E. discriminate E.
  - intros ->. cbn in Hm. now injection Hm as <-.
  - intros E. destruct (errorMarkup_head (errMessage faultMessage e))
      as (r & Hr).
    rewrite Hr in E. discriminate E.
  - intros ->. discriminate Hm.
Qed.

Lemma fetch_empty_grid_witness :
  ok 200 = true /\
  galleryHTML (fetchAndRender sampleFaultMessage Wrapped
                 (Response 200 (BodyJson (JArr []))) freshPage) = "".
Proof.
  split; [reflexivity|].
  exact (proj2 (fetch_empty_grid sampleFaultMessage Wrapped 200 [] freshPage
                  eq_refl (Forall_nil _)) eq_refl).
Defined.

(** The four ways of failing, and success, are all there is. *)
Lemma fetch_outcome_cases
  (faultMessage : EngineFault -> string) (outcome : FetchOutcome) :
  (exists message, FetchFailure faultMessage outcome message) \/
  (exists status items,
     outcome = Response status (BodyJson (JArr items)) /\ ok status = true).
Proof.
  destruct outcome as [|status body].
  - left. eexists. constructor.
  - destruct (ok status) eqn:Hok.
    + destruct body as [|data].
      * left. eexists. now constructor.
      * destruct data; try (left; eexists; now constructor).
        right. eauto.
    + left. eexists. now constructor.
Qed.

Lemma fetchSettle_failure
  (faultMessage : EngineFault -> string) (vr : Variant)
  (outcome : FetchOutcome) (message : string) (pg : Page) :
  FetchFailure faultMessage outcome message ->
  fetchSettle faultMessage vr outcome pg = setGallery (errorMarkup message) pg.
Proof.
  intros H. unfold fetchSettle, tryFetch.
  destruct H as [|status body Hok|status Hok|status data Hok Hd];
    rewrite ?Hok; try reflexivity.
  destruct data; try reflexivity. now destruct (Hd elems).
Qed.

(** X8. Every failure before the list is stored (no response, a
    non-success status, a body that is not JSON, JSON that is not an array)
    ends the same way: the grid shows the notice with that failure's
    message, and neither [apodItems] nor the modal is touched. *)
Theorem fetch_failure_notice
  (faultMessage : EngineFault -> string) (vr : Variant)
  (outcome : FetchOutcome) (message : string) (pg : Page) :
  FetchFailure faultMessage outcome message ->
  fetchAndRender faultMessage vr outcome pg =
    mkPage (apodItems pg) (errorMarkup message) (modalOverlay pg).
Proof.
  intros H.
  now rewrite fetchAndRender_turns, (fetchSettle_failure _ _ _ _ _ H).
Qed.

Lemma fetch_failure_notice_witness :
  FetchFailure sampleFaultMessage
    (Response 200 (BodyJson (JObj [("error", JStr "rate limited")])))
    "Unexpected data format (expected an array)." /\
  fetchAndRender sampleFaultMessage Wrapped
    (Response 200 (BodyJson (JObj [("error", JStr "rate limited")])))
    (setItems sampleItems freshPage)
  = mkPage sampleItems
      (errorMarkup "Unexpected data format (expected an array).") None.
Proof.
  assert (H : FetchFailure sampleFaultMessage
                (Response 200 (BodyJson (JObj [("error", JStr "rate limited")])))
                "Unexpected data format (expected an array).")
    by (constructor; [reflexivity | discriminate]).
  split; [exact H|].
  exact (fetch_failure_notice sampleFaultMessage Wrapped _ _
           (setItems sampleItems freshPage) H).
Defined.

Lemma fetchSettle_modal
  (faultMessage : EngineFault -> string) (vr : Variant)
  (outcome : FetchOutcome) (pg : Page) :
  modalOverlay (fetchSettle faultMessage vr outcome pg) = modalOverlay pg.
Proof.
  destruct (fetch_outcome_cases faultMessage outcome)
    as [(message & H)|(status & items & -> & Hok)].
  - now rewrite (fetchSettle_failure _ vr _ _ pg H).
  - rewrite (fetch_success_page _ _ _ _ _ Hok).
    destruct (mapCards vr items 0); reflexivity.
Qed.

(** X9. Fetching never touches the modal: an open modal stays open, with
    the item it shows, while the list behind it is reloaded or replaced. *)
Theorem fetch_keeps_modal
  (faultMessage : EngineFault -> string) (vr : Variant)
  (outcome : FetchOutcome) (pg : Page) :
  modalOverlay (fetchAndRender faultMessage vr outcome pg) = modalOverlay pg.
Proof.
  rewrite fetchAndRender_turns.
  destruct (fetch_outcome_cases faultMessage outcome)
    as [(message & H)|(status & items & -> & Hok)].
  - now rewrite (fetchSettle_failure _ vr _ _ _ H).
  - rewrite (fetch_success_page _ _ _ _ _ Hok).
    destruct (mapCards vr items 0); reflexivity.
Qed.

Lemma fetchSettle_gallery
  (faultMessage : EngineFault -> string) (vr : Variant)
  (outcome : FetchOutcome) (pg : Page) :
  galleryHTML (fetchSettle faultMessage vr outcome pg) = "" \/
  exists r, galleryHTML (fetchSettle faultMessage vr outcome pg)
            = nl ++ tabs 3 ++ r.
Proof.
  destruct (fetch_outcome_cases faultMessage outcome)
    as [(message & H)|(status & items & -> & Hok)].
  - rewrite (fetchSettle_failure _ vr _ _ pg H). right.
    apply errorMarkup_head.
  - rewrite (fetch_success_page _ _ _ _ _ Hok).
    destruct (mapCards vr items 0) as [cards|e] eqn:Hm.
    + destruct items as [|item items].
      * cbn in Hm. injection Hm as <-. now left.
      * right. exact (mapCards_head _ _ _ _ _ Hm).
    + right. apply errorMarkup_head.
Qed.

(** X10. Once the response has settled the loading indicator is gone,
    whatever the outcome: the grid holds cards, the error notice, or
    nothing. *)
Theorem fetch_never_left_loading
  (faultMessage : EngineFault -> string) (vr : Variant)
  (outcome : FetchOutcome) (pg : Page) :
  galleryHTML (showLoading pg) = loadingMarkup /\
  galleryHTML (fetchAndRender faultMessage vr outcome pg) <> loadingMarkup.
Proof.
  split; [reflexivity|]. rewrite fetchAndRender_turns.
  destruct (fetchSettle_gallery faultMessage vr outcome (showLoading pg))
    as [E|(r & E)]; rewrite E; discriminate.
Qed.

(* ================================================================== *)
(** ** Overlapping fetches                                             *)
(* ================================================================== *)

Lemma fetchSettle_gallery_indep
  (faultMessage : EngineFault -> string) (vr : Variant)
  (outcome : FetchOutcome) (pg1 pg2 : Page) :
  galleryHTML (fetchSettle faultMessage vr outcome pg1) =
  galleryHTML (fetchSettle faultMessage vr outcome pg2).
Proof.
  destruct (fetch_outcome_cases faultMessage outcome)
    as [(message & H)|(status & items & -> & Hok)].
  - now rewrite !(fetchSettle_failure _ vr _ _ _ H).
  - rewrite !(fetch_success_page _ _ _ _ _ Hok).
    destruct (mapCards vr items 0); reflexivity.
Qed.

Lemma fetchSettle_stores
  (faultMessage : EngineFault -> string) (vr : Variant)
  (status : Z) (items : list JsVal) (pg : Page) :
  ok status = true ->
  apodItems (fetchSettle faultMessage vr
               (Response status (BodyJson (JArr items))) pg) = items.
Proof.
  intros Hok. rewrite (fetch_success_page _ _ _ _ _ Hok).
  destruct (mapCards vr items 0); reflexivity.
Qed.

(** X11. When two fetches overlap, the one whose response settles last
    decides the page, whichever was started first: the grid is what that
    response alone would give, an array it delivers replaces the list that
    the other response stored, and if it fails the other response's list
    stays behind the error notice. *)
Theorem fetch_last_settled_wins
  (faultMessage : EngineFault -> string) (vr : Variant)
  (first second : FetchOutcome) (pg : Page) :
  let final :=
    run faultMessage vr
        [StartFetch; StartFetch; SettleFetch second; SettleFetch first] pg in
  galleryHTML final = galleryHTML (fetchAndRender faultMessage vr first pg) /\
  (forall status items,
     first = Response status (BodyJson (JArr items)) -> ok status = true ->
     apodItems final = items) /\
  (forall message,
     FetchFailure faultMessage first message ->
     apodItems final = apodItems (fetchAndRender faultMessage vr second pg)).
Proof.
  intros final. unfold final, run. cbn [fold_left step].
  split; [|split].
  - rewrite fetchAndRender_turns. apply fetchSettle_gallery_indep.
  - intros status items -> Hok. now apply fetchSettle_stores.
  - intros message H. rewrite (fetchSettle_failure _ vr _ _ _ H).
    cbn [apodItems setGallery]. rewrite fetchAndRender_turns.
    destruct (fetch_outcome_cases faultMessage second)
      as [(m2 & H2)|(status & items & -> & Hok)].
    + now rewrite !(fetchSettle_failure _ vr _ _ _ H2).
    + now rewrite !fetchSettle_stores.
Qed.

Lemma fetch_last_settled_wins_witness :
  apodItems
    (run sampleFaultMessage Wrapped
       [StartFetch; StartFetch;
        SettleFetch (Response 200 (BodyJson (JArr [sampleAsteroid])));
        SettleFetch (Response 200 (BodyJson (JArr sampleItems)))]
       freshPage)
  = sampleItems.
Proof.
  exact (proj1 (proj2 (fetch_last_settled_wins sampleFaultMessage Wrapped
                         (Response 200 (BodyJson (JArr sampleItems)))
                         (Response 200 (BodyJson (JArr [sampleAsteroid])))
                         freshPage))
           200 sampleItems eq_refl eq_refl).
Defined.

(* ================================================================== *)
(** ** More on the modal                                               *)
(* ================================================================== *)

Lemma openModal_page (item : JsVal) (pg : Page) :
  snd (openModal item pg) =
  match modalInnerHTML item with
  | Normal html =>
      mkPage (apodItems pg) (galleryHTML pg) (Some (mkModal DisplayFlex html))
  | Throw _ => ensureModal pg
  end.
Proof.
  unfold openModal. destruct (modalInnerHTML item); [|reflexivity].
  unfold ensureModal. now destruct (modalOverlay pg).
Qed.

(** X12. After an item has been opened, each of the three dismissals (the
    close button, a click on the overlay itself, the Escape key) hides the
    modal and keeps its content, list and grid; a click inside the content
    box, or any other key, leaves the modal as it is. *)
Theorem modal_dismissal (item : JsVal) (html : string) (pg : Page) :
  modalInnerHTML item = Normal html ->
  let opened := snd (openModal item pg) in
  opened =
    mkPage (apodItems pg) (galleryHTML pg) (Some (mkModal DisplayFlex html)) /\
  (forall ev, Dismisses ev ->
     onModalEvent ev opened =
       mkPage (apodItems pg) (galleryHTML pg)
              (Some (mkModal DisplayNone html))) /\
  onModalEvent (OverlayClick false) opened = opened /\
  (forall key, key <> "Escape" ->
     onModalEvent (DocumentKeydown key) opened = opened).
Proof.
  intros H opened.
  assert (E : opened = mkPage (apodItems pg) (galleryHTML pg)
                              (Some (mkModal DisplayFlex html))).
  { unfold opened. now rewrite openModal_page, H. }
  rewrite E. repeat split.
  - intros ev [->|[->| ->]]; reflexivity.
  - intros key Hk. apply String.eqb_neq in Hk.
    unfold onModalEvent. cbn [modalOverlay]. now rewrite Hk.
Qed.

Lemma modal_dismissal_witness :
  exists html,
    modalInnerHTML sampleImage = Normal html /\
    onModalEvent (DocumentKeydown "Escape")
                 (snd (openModal sampleImage freshPage))
    = mkPage [] "" (Some (mkModal DisplayNone html)).
Proof.
  destruct (modalInnerHTML sampleImage) as [html|e] eqn:E;
    [|discriminate E].
  exists html. split; [reflexivity|].
  destruct (modal_dismissal sampleImage html freshPage E) as (_ & Hd & _).
  apply Hd. right. right. reflexivity.
Defined.

(** X13. The modal is one element reused: opening an item replaces
    whatever an earlier [openModal] left, whether that call succeeded,
    threw, or the modal had been closed since. *)
Theorem modal_shows_last_opened (earlier item : JsVal) (html : string)
  (pg : Page) :
  modalInnerHTML item = Normal html ->
  snd (openModal item (snd (openModal earlier pg))) = snd (openModal item pg) /\
  snd (openModal item (closeModal (snd (openModal earlier pg))))
    = snd (openModal item pg) /\
  modalOverlay (snd (openModal item pg)) = Some (mkModal DisplayFlex html).
Proof.
  intros H. rewrite !(openModal_page item), H.
  rewrite (openModal_page earlier).
  destruct pg as [items grid [m|]];
    destruct (modalInnerHTML earlier); repeat split; reflexivity.
Qed.

Lemma modal_shows_last_opened_witness :
  exists html,
    modalInnerHTML sampleAsteroid = Normal html /\
    modalOverlay (snd (openModal sampleAsteroid
                         (snd (openModal sampleVideoBadUrl freshPage))))
    = Some (mkModal DisplayFlex html).
Proof.
  destruct (modalInnerHTML sampleAsteroid) as [html|e] eqn:E;
    [|discriminate E].
  exists html. split; [reflexivity|].
  destruct (modal_shows_last_opened sampleVideoBadUrl sampleAsteroid html
              freshPage E) as (E1 & _ & E3).
  now rewrite E1.
Defined.

(** X14. A video item whose [url] is present but is not text (a number,
    [true], an object, or an array holding "embed") makes [openModal]
    throw a TypeError: the modal gets built if it was not, but nothing is
    shown and the content of an earlier item stays. *)
Theorem openModal_url_not_text (item : JsVal) (pg : Page) :
  field item "media_type" = JStr "video" ->
  truthy (field item "url") = true ->
  isString (field item "url") = false ->
  (forall elems, field item "url" = JArr elems ->
                 arrayIncludesStr elems "embed" = true) ->
  openModal item pg = (Throw (EngineError NotCallable), ensureModal pg) /\
  (forall m, modalOverlay pg = Some m ->
             snd (openModal item pg) = pg) /\
  (modalOverlay pg = None ->
   modalOverlay (snd (openModal item pg)) = Some (mkModal DisplayNone "")).
Proof.
  intros Hm Ht Hs Harr.
  assert (H : nullish item = false)
    by (destruct item; try reflexivity; discriminate Hm).
  assert (E : modalInnerHTML item = Throw (EngineError NotCallable)).
  { unfold modalInnerHTML, mediaHTML. read_fields H.
    rewrite Hm. cbn [strictEqStr].
    change (String.eqb "video" "image") with false.
    rewrite String.eqb_refl, Ht.
    destruct (field item "url") as [| | | | | |elems|] eqn:Hu;
      try discriminate Ht; try discriminate Hs; try reflexivity.
    cbn [callIncludes bind]. now rewrite (Harr elems eq_refl). }
  unfold openModal. rewrite E. cbn [snd]. split; [reflexivity|].
  unfold ensureModal. split.
  - intros m Hmod. now rewrite Hmod.
  - intros Hmod. now rewrite Hmod.
Qed.

Lemma openModal_url_not_text_witness :
  field sampleVideoBadUrl "media_type" = JStr "video" /\
  field sampleVideoBadUrl "url" = JNum 42 /\
  openModal sampleVideoBadUrl freshPage =
    (Throw (EngineError NotCallable),
     mkPage [] "" (Some (mkModal DisplayNone ""))).
Proof.
  split; [reflexivity|]. split; [reflexivity|].
  refine (proj1 (openModal_url_not_text sampleVideoBadUrl freshPage
                   eq_refl eq_refl eq_refl _)).
  intros elems E. discriminate E.
Defined.

(** X15. A video item whose [url] is text without "embed" gets a plain
    link whose target and text are that URL; one whose [url] is absent or
    empty gets the "Video unavailable." notice.  Either way, when title
    and explanation can be drawn, the modal opens and shows it. *)
Theorem video_link_or_unavailable (item : JsVal) (pg : Page) :
  field item "media_type" = JStr "video" ->
  printable (field item "title") = true ->
  printable (field item "explanation") = true ->
  (forall u,
     field item "url" = JStr u -> u <> "" -> includes u "embed" = false ->
     exists html,
       openModal item pg =
         (Normal tt, setModal (mkModal DisplayFlex html) (ensureModal pg)) /\
       includes html (plainAnchor u) = true) /\
  (truthy (field item "url") = false ->
   exists html,
     openModal item pg =
       (Normal tt, setModal (mkModal DisplayFlex html) (ensureModal pg)) /\
     includes html (mediaTag "<p>Video unavailable.</p>") = true).
Proof.
  intros Hm Ht He.
  assert (H : nullish item = false)
    by (destruct item; try reflexivity; discriminate Hm).
  split.
  - intros u Hu Hne Hinc.
    pose proof (mediaHTML_video_link item
                  (jsOr (field item "title") (JStr "Untitled"))
                  u Hm Hu Hne Hinc) as E.
    eexists. split.
    + apply openModal_of_content.
      apply modalInnerHTML_of_media; [exact H | exact E | exact Ht | exact He].
    + exact (videoLink_anchor _ _ _ _).
  - intros Hf.
    pose proof (mediaHTML_video_absent item
                  (jsOr (field item "title") (JStr "Untitled")) Hm Hf) as E.
    eexists. split.
    + apply openModal_of_content.
      apply modalInnerHTML_of_media; [exact H | exact E | exact Ht | exact He].
    + exact (proj1 (proj2 (modalMarkup_parts _ _ videoUnavailable _))).
Qed.

Lemma video_link_or_unavailable_witness :
  field sampleVideoThumb "url" = JStr "https://vimeo.example/v/42" /\
  exists html,
    openModal sampleVideoThumb freshPage =
      (Normal tt, mkPage [] "" (Some (mkModal DisplayFlex html))) /\
    includes html (plainAnchor "https://vimeo.example/v/42") = true.
Proof.
  split; [reflexivity|].
  exact (proj1 (video_link_or_unavailable sampleVideoThumb freshPage
                  eq_refl eq_refl eq_refl)
           "https://vimeo.example/v/42" eq_refl
           ltac:(discriminate) eq_refl).
Defined.



Lemma closeModal_idempotent_witness :
  closeModal freshPage = freshPage /\
  closeModal (closeModal (snd (openModal sampleImage freshPage)))
    = closeModal (snd (openModal sampleImage freshPage)).
Proof.
  split.
  - exact (proj1 (proj2 (closeModal_idempotent freshPage)) eq_refl).
  - exact (proj1 (closeModal_idempotent _)).
Defined.

(* ================================================================== *)
(** ** Selections, from the grid to the modal                          *)
(* ================================================================== *)

Lemma select_rendered_card_witness :
  Selects (KeyDown "Enter" (Some (mkCard (Some "2")))) (mkCard (Some "2")) /\
  nth_error sampleItems 2 = Some sampleAsteroid /\
  dispatch (KeyDown "Enter" (Some (mkCard (Some "2"))))
           (setItems sampleItems freshPage)
    = openModal sampleAsteroid (setItems sampleItems freshPage).
Proof.
  assert (S : Selects (KeyDown "Enter" (Some (mkCard (Some "2"))))
                      (mkCard (Some "2")))
    by (right; reflexivity).
  split; [exact S|]. split; [reflexivity|].
  exact (select_rendered_card _ (setItems sampleItems freshPage) 2%nat
           sampleAsteroid S eq_refl eq_refl).
Defined.

Lemma dispatch_page (ev : Selection) (pg : Page) :
  snd (dispatch ev pg) = pg \/
  exists item, snd (dispatch ev pg) = snd (openModal item pg).
Proof.
  destruct ev as [[card|]|key [card|]]; simpl; unfold onGalleryKeydown;
    try (destruct (negb (String.eqb key "Enter")));
    try (now left);
    destruct (truthy (arrayGet (apodItems pg) (cardIndex card)));
    [right; eauto | now left | right; eauto | now left].
Qed.

Lemma openModal_frame (item : JsVal) (pg : Page) :
  apodItems (snd (openModal item pg)) = apodItems pg /\
  galleryHTML (snd (openModal item pg)) = galleryHTML pg /\
  modalOverlay (snd (openModal item pg)) <> None.
Proof.
  rewrite openModal_page.
  destruct (modalInnerHTML item); [repeat split; discriminate|].
  unfold ensureModal. destruct (modalOverlay pg) eqn:E;
    repeat split; cbn; try rewrite E; discriminate.
Qed.

Lemma onModalEvent_frame (ev : ModalEvent) (pg : Page) :
  apodItems (onModalEvent ev pg) = apodItems pg /\
  galleryHTML (onModalEvent ev pg) = galleryHTML pg /\
  (modalOverlay pg = None -> onModalEvent ev pg = pg) /\
  (modalOverlay pg <> None -> modalOverlay (onModalEvent ev pg) <> None).
Proof.
  unfold onModalEvent, closeModal.
  destruct pg as [items grid [m|]]; cbn; repeat split; try congruence;
    destruct ev as [|[]|key]; try destruct (String.eqb key "Escape");
    cbn; congruence.
Qed.

(** X19. Nothing the user does to a card or to the modal changes the list
    or the grid: selections and modal events only ever touch the modal. *)
Theorem interaction_keeps_grid (pg : Page) :
  (forall ev,
     apodItems (snd (dispatch ev pg)) = apodItems pg /\
     galleryHTML (snd (dispatch ev pg)) = galleryHTML pg) /\
  (forall ev,
     apodItems (onModalEvent ev pg) = apodItems pg /\
     galleryHTML (onModalEvent ev pg) = galleryHTML pg).
Proof.
  split; intros ev.
  - destruct (dispatch_page ev pg) as [->|(item & ->)]; [auto|].
    destruct (openModal_frame item pg) as (? & ? & _). auto.
  - destruct (onModalEvent_frame ev pg) as (? & ? & _). auto.
Qed.

(** X20. From a fetched list to the modal: after a successful
    fetch-and-render of items that can all be drawn, the grid holds a card
    for every position, opening with its [data-index]; selecting the card
    of position i opens the object at position i of the array received,
    and an element that is not null but falsy (0, false, an empty string)
    has its card too, yet selecting it does nothing. *)
Theorem fetch_then_select
  (faultMessage : EngineFault -> string) (vr : Variant)
  (status : Z) (items : list JsVal) (pg : Page)
  (ev : Selection) (i : nat) (item : JsVal) :
  ok status = true ->
  Forall Renderable items ->
  nth_error items i = Some item ->
  Selects ev (mkCard (Some (numberToString (Some (Z.of_nat i))))) ->
  let pg' :=
    fetchAndRender faultMessage vr (Response status (BodyJson (JArr items))) pg
  in
  (exists cards card,
     galleryHTML pg' = String.concat "" cards /\
     nth_error cards i = Some card /\
     startsWith (cardOpening i) card = true) /\
  (forall props, item = JObj props -> dispatch ev pg' = openModal item pg') /\
  (truthy item = false -> dispatch ev pg' = (Normal tt, pg')).
Proof.
  intros Hok Hall Hn Hsel pg'.
  destruct (fetch_cards faultMessage vr status items pg Hok Hall)
    as (cards & Hpg & _ & Hcards).
  assert (Hitems : apodItems pg' = items) by (unfold pg'; now rewrite Hpg).
  split.
  { destruct (Hcards i item Hn) as (card & Hc & _ & Hs).
    exists cards, card. unfold pg'. rewrite Hpg. auto. }
  rewrite (dispatch_selected ev _ pg' Hsel).
  assert (Hget : arrayGet (apodItems pg')
                   (cardIndex (mkCard (Some (numberToString
                                               (Some (Z.of_nat i))))))
                 = item).
  { unfold cardIndex. cbn [dataIndex].
    rewrite parseInt_numberToString by lia.
    unfold arrayGet. destruct (Z.ltb_spec (Z.of_nat i) 0) as [E|E]; [lia|].
    rewrite Nat2Z.id, Hitems. now apply nth_error_nth. }
  rewrite Hget. split.
  - now intros props ->.
  - now intros ->.
Qed.

Lemma fetch_then_select_witness :
  ok 200 = true /\
  Forall Renderable sampleItems /\
  nth_error sampleItems 0 = Some sampleImage /\
  Selects (Click (Some (mkCard (Some "0")))) (mkCard (Some "0")) /\
  exists html,
    modalInnerHTML sampleImage = Normal html /\
    modalOverlay
      (snd (dispatch (Click (Some (mkCard (Some "0"))))
              (fetchAndRender sampleFaultMessage Wrapped
                 (Response 200 (BodyJson (JArr sampleItems))) freshPage)))
    = Some (mkModal DisplayFlex html).
Proof.
  assert (S : Selects (Click (Some (mkCard (Some "0")))) (mkCard (Some "0")))
    by (left; reflexivity).
  split; [reflexivity|]. split; [exact sampleItems_renderable|].
  split; [reflexivity|]. split; [exact S|].
  destruct (modalInnerHTML sampleImage) as [html|e] eqn:E;
    [|discriminate E].
  exists html. split; [reflexivity|].
  rewrite (proj1 (proj2 (fetch_then_select sampleFaultMessage Wrapped 200
                           sampleItems freshPage _ 0%nat sampleImage eq_refl
                           sampleItems_renderable eq_refl S))
             _ eq_refl).
  now rewrite openModal_page, E.
Defined.

(** A list may hold a number: [0] gets the card of an unsupported item,
    and selecting that card leaves the page as it is. *)
Example falsy_element_card :
  let pg := fetchAndRender sampleFaultMessage Wrapped
              (Response 200 (BodyJson (JArr [sampleImage; JNum 0]))) freshPage
  in
  (exists first second,
     galleryHTML pg = first ++ second /\
     renderCard Wrapped sampleImage 0 = Normal first /\
     renderCard Wrapped (JNum 0) 1 = Normal second /\
     startsWith (cardOpening 1) second = true /\
     includes second "<p>Unsupported media</p>" = true) /\
  dispatch (Click (Some (mkCard (Some "1")))) pg = (Normal tt, pg).
Proof.
  split; [|reflexivity].
  destruct (renderCard Wrapped sampleImage 0) as [first|e] eqn:E1;
    [|discriminate E1].
  destruct (renderCard Wrapped (JNum 0) 1) as [second|e] eqn:E2;
    [|discriminate E2].
  exists first, second.
  injection E1 as <-. injection E2 as <-.
  repeat split; reflexivity.
Qed.

(* ================================================================== *)
(** ** Invariants of the running page                                  *)
(* ================================================================== *)

Lemma step_keeps_modal_built
  (faultMessage : EngineFault -> string) (vr : Variant)
  (a : Action) (pg : Page) :
  modalOverlay pg <> None -> modalOverlay (step faultMessage vr a pg) <> None.
Proof.
  intros H. destruct a as [|outcome|ev|ev]; cbn [step].
  - exact H.
  - now rewrite fetchSettle_modal.
  - destruct (dispatch_page ev pg) as [->|(item & ->)]; [exact H|].
    apply openModal_frame.
  - now apply onModalEvent_frame.
Qed.

(** X21. The modal is built at most once and never taken down: once
    [modalOverlay] is set, no sequence of fetches, selections and modal
    events unsets it. *)
Theorem modal_stays_built
  (faultMessage : EngineFault -> string) (vr : Variant)
  (acts : list Action) (pg : Page) :
  modalOverlay pg <> None ->
  modalOverlay (run faultMessage vr acts pg) <> None.
Proof.
  unfold run. revert pg.
  induction acts as [|a acts IH]; intros pg H; cbn [fold_left];
    [exact H|].
  apply IH. now apply step_keeps_modal_built.
Qed.

Lemma modal_stays_built_witness :
  modalOverlay (snd (openModal sampleImage freshPage)) <> None /\
  modalOverlay
    (run sampleFaultMessage Wrapped
       [ModalAct (DocumentKeydown "Escape"); StartFetch;
        SettleFetch Rejected; ModalAct CloseButtonClick]
       (snd (openModal sampleImage freshPage))) <> None.
Proof.
  assert (H : modalOverlay (snd (openModal sampleImage freshPage)) <> None)
    by discriminate.
  split; [exact H|].
  exact (modal_stays_built sampleFaultMessage Wrapped _ _ H).
Defined.

Lemma fetchSettle_no_items
  (faultMessage : EngineFault -> string) (vr : Variant)
  (outcome : FetchOutcome) (pg : Page) :
  ~ DeliversItems outcome -> apodItems pg = [] ->
  apodItems (fetchSettle faultMessage vr outcome pg) = [].
Proof.
  intros Hno Hpg.
  destruct (fetch_outcome_cases faultMessage outcome)
    as [(message & H)|(status & items & -> & Hok)].
  - now rewrite (fetchSettle_failure _ vr _ _ _ H).
  - rewrite fetchSettle_stores by exact Hok.
    destruct items as [|first rest]; [reflexivity|].
    exfalso. apply Hno. now exists status, first, rest.
Qed.

Lemma dispatch_empty_list (ev : Selection) (pg : Page) :
  apodItems pg = [] -> dispatch ev pg = (Normal tt, pg).
Proof.
  intros H.
  assert (E : forall index, truthy (arrayGet (apodItems pg) index) = false).
  { intros [z|]; [|reflexivity]. rewrite H. unfold arrayGet.
    destruct (z <? 0); [reflexivity|]. now destruct (Z.to_nat z). }
  destruct ev as [[card|]|key [card|]]; simpl; unfold onGalleryKeydown;
    try (destruct (negb (String.eqb key "Enter")));
    rewrite ?E; reflexivity.
Qed.

(** X22. Until a response delivers at least one element, nothing can be
    opened: starting with an empty list and no modal, any sequence of
    clicks, key presses, modal events and fetches that fail or bring an
    empty array leaves the list empty and the modal unbuilt. *)
Theorem nothing_opens_before_items
  (faultMessage : EngineFault -> string) (vr : Variant)
  (acts : list Action) (pg : Page) :
  apodItems pg = [] -> modalOverlay pg = None ->
  (forall outcome, In (SettleFetch outcome) acts -> ~ DeliversItems outcome) ->
  apodItems (run faultMessage vr acts pg) = [] /\
  modalOverlay (run faultMessage vr acts pg) = None.
Proof.
  unfold run. revert pg.
  induction acts as [|a acts IH]; intros pg Hi Hm Hacts; cbn [fold_left];
    [auto|].
  apply IH.
  - destruct a as [|outcome|ev|ev]; cbn [step].
    + exact Hi.
    + apply fetchSettle_no_items; [|exact Hi]. apply Hacts. now left.
    + now rewrite (dispatch_empty_list ev pg Hi).
    + now rewrite (proj1 (onModalEvent_frame ev pg)).
  - destruct a as [|outcome|ev|ev]; cbn [step].
    + exact Hm.
    + now rewrite fetchSettle_modal.
    + now rewrite (dispatch_empty_list ev pg Hi).
    + destruct (onModalEvent_frame ev pg) as (_ & _ & E & _).
      now rewrite (E Hm).
  - intros outcome Hin. apply Hacts. now right.
Qed.

Lemma nothing_opens_before_items_witness :
  (forall outcome,
     In (SettleFetch outcome) sampleQuietActs -> ~ DeliversItems outcome) /\
  apodItems (run sampleFaultMessage Wrapped sampleQuietActs freshPage) = [] /\
  modalOverlay (run sampleFaultMessage Wrapped sampleQuietActs freshPage)
    = None.
Proof.
  assert (Hacts : forall outcome,
            In (SettleFetch outcome) sampleQuietActs ->
            ~ DeliversItems outcome).
  { intros outcome Hin (status & first & rest & -> & Hok).
    simpl in Hin.
    repeat (destruct Hin as [Hin|Hin]; try discriminate Hin);
      contradiction. }
  split; [exact Hacts|].
  exact (nothing_opens_before_items sampleFaultMessage Wrapped
           sampleQuietActs freshPage eq_refl eq_refl Hacts).
Defined.
